(** * wercker: the pipeline runner and the metrics event handler

    A shallow embedding of two Go sources of the repository:

    - package [main] ([SoftExit.Exit], [executePipeline]), and
    - package [event] ([MetricsEventHandler], [NewMetricsHandler]).

    Go functions that call into the outside world (the runner, the box, the
    session, the keen client, the clock) are embedded in a small monad with
    three effects: a mutable store for the variables the code shares through
    pointers, an output trace of the calls made, and panics.  The answers of
    the outside world are the fields of a [World] record. *)

From Stdlib Require Import ZArith Lia.
From stdpp Require Import base option list strings gmap.

Set Default Proof Using "Type".

(** ** Go runtime: errors, panics, traces *)

(** The Go type [error]: [None] is [nil], [Some msg] an error whose
    [Error()] is [msg]. *)
Abbreviation error := (option string).

(** [fmt.Errorf] with a format that has been expanded already. *)
Definition fmt_Errorf (msg : string) : error := Some msg.

(** [fmt.Sprintln] on already formatted operands, without the final
    newline (logrus strips it): operands separated by one space. *)
Fixpoint sprintln (v : list string) : string :=
  match v with
  | [] => ""
  | [x] => x
  | x :: rest => x +:+ " " +:+ sprintln rest
  end.

(** Go [int] is 64 bits wide on the platforms wercker runs on. *)
Definition wrap64 (z : Z) : Z := ((z + 2 ^ 63) mod 2 ^ 64 - 2 ^ 63)%Z.

(** The result of running a piece of Go code: it completes with a value or
    it is panicking. *)
Inductive Res (A : Type) : Type :=
| Val (a : A)
| Panic (msg : string).
Arguments Val {A} a.
Arguments Panic {A} msg.

Section monad.
Context {S E : Type}.

(** A computation over a store [S] that leaves a trace of [E]. *)
Definition M (A : Type) : Type := S → Res A * S * list E.

Definition ret {A} (a : A) : M A := λ s, (Val a, s, []).

Definition bind {A B} (m : M A) (k : A → M B) : M B := λ s,
    match m s with
    | (Val a, s1, t1) =>
        match k a s1 with
        | (r, s2, t2) => (r, s2, t1 ++ t2)
        end
    | (Panic msg, s1, t1) => (Panic msg, s1, t1)
    end.

Definition emit (e : E) : M unit := λ s, (Val tt, s, [e]).
Definition get : M S := λ s, (Val s, s, []).
Definition modify (f : S → S) : M unit := λ s, (Val tt, f s, []).
Definition panic {A} (msg : string) : M A := λ s, (Panic msg, s, []).
End monad.
Arguments M : clear implicits.

Notation "x ← m ; k" := (bind m (λ x, k))
  (at level 20, m at level 100, k at level 200, only parsing).
Notation "m ;; k" := (bind m (λ _, k))
  (at level 100, k at level 200, right associativity, only parsing).

Definition outcome {A S E} (r : Res A * S * list E) : Res A := r.1.1.
Definition final {A S E} (r : Res A * S * list E) : S := r.1.2.
Definition trace {A S E} (r : Res A * S * list E) : list E := r.2.

(** The events of a trace after the first one that satisfies [p]. *)
Fixpoint after {E} (p : E → bool) (t : list E) : list E :=
  match t with
  | [] => []
  | e :: t' => if p e then t' else after p t'
  end.

(** The number of events of a trace that satisfy [p]. *)
Fixpoint count {E} (p : E → bool) (t : list E) : nat :=
  match t with
  | [] => 0
  | e :: t' => (if p e then 1 else 0) + count p t'
  end.

(** ** Package main *)

Module main.

(** *** Data *)

(** The fields of [GlobalOptions] that [executePipeline] reads. *)
Record GlobalOptions := {
  Debug : bool;
  ShouldRemove : bool;
  ShouldCommit : bool;
  ShouldPush : bool;
  ShouldArtifacts : bool;
  Registry : string;
  AuthToken : string;
}.

Record Step := {
  Name : string;
  ID : string;
  DisplayName : string;
}.

Record Artifact := { URL : string }.

(** [sr_] prefixes the fields of [StepResult], [pr_] those of
    [PipelineResult]. *)
Record StepResult := {
  sr_Success : bool;
  sr_Artifact : option Artifact;
  sr_Message : string;
  sr_PackageURL : string;
  sr_ExitCode : Z;
}.

Record PipelineResult := {
  pr_Success : bool;
  pr_FailedStepName : string;
  pr_FailedStepMessage : string;
}.

Record PushOptions := {
  po_Registry : string;
  po_Name : string;
  po_Tag : string;
  po_Message : string;
}.

Record AuthConfiguration := {
  Username : string;
  Password : string;
  ServerAddress : string;
}.

(** What [p.SetupEnvironment()] returns: a context and an error.  The context
    is never nil and carries a box whenever the error is nil; with an error
    the box may or may not have been created. *)
Inductive SetupResult :=
| SetupOk
| SetupFailed (boxCreated : bool) (err : string).

Definition ctx_box (r : SetupResult) : bool :=
  match r with
  | SetupOk => true
  | SetupFailed b _ => b
  end.

Definition setup_err (r : SetupResult) : error :=
  match r with
  | SetupOk => None
  | SetupFailed _ e => Some e
  end.

(** The two [RunnerContext] values of a run: [ctx] of the user steps and
    [newCtx] of the after-steps. *)
Inductive Context_ := ctx | newCtx.

Inductive Level := InfoLevel | WarnLevel | ErrorLevel | PanicLevel.

(** The calls [executePipeline] makes, in the order it makes them, with what
    the callee answered where the code looks at the answer.  A trace records
    every call of [buildFinisher.Finish], the one in the body and the
    deferred one; what the finisher does with the second call is not among
    the sources. *)
Inductive Action :=
| Log (lvl : Level) (msg : string)
| StartBuild
| Finisher_Finish (result : bool)
| DumpOptions
| EnsureCode (err : error)
| SetupEnvironment (res : SetupResult)
| Emit_BuildStepsAdded (steps : list Step) (storeStep : Step) (afterSteps : list Step)
| RunStep (c : Context_) (step : Step) (order : Z) (err : error)
| Box_Commit (repoName tag message : string)
| StartStep (step : Step) (order : Z)
| StepFinisher_Finish (sr : StepResult)
| Box_Push (po : PushOptions) (auth : AuthConfiguration) (err : error)
| CollectArtifact (res : string + Artifact)
| Artificer_Upload (a : Artifact) (err : error)
| Box_Restart (err : error)
| GetSession (err : error)
| Pipeline_ExportEnvironment (err : error)
| Result_ExportEnvironment (pr : PipelineResult) (err : error)
| Box_Stop
| Box_Clean.

(** The answers of everything [executePipeline] calls and does not define. *)
Record World := {
  w_NewGlobalOptions : string + GlobalOptions;
  w_EnsureCode : error;
  w_SetupEnvironment : SetupResult;
  w_Steps : list Step;
  w_AfterSteps : list Step;
  w_DockerRepo : string;
  w_DockerTag : string;
  w_DockerMessage : string;
  (** [p.RunStep(c, step, order)]; the step result is never nil. *)
  w_RunStep : Context_ → Step → Z → StepResult * error;
  w_Push : error;
  w_CollectArtifact : string + Artifact;
  w_Upload : Artifact → error;
  w_Restart : error;
  w_GetSession : error;
  w_ExportEnvironment : error;
  w_ResultExportEnvironment : PipelineResult → error;
}.

(** *** The store *)

(** A call registered with [defer].  Arguments are evaluated when the call is
    registered; [DStepFinish] holds the pointer [sr], whose target is read
    when the call runs. *)
Inductive Deferred :=
| DFinish (result : bool)
| DBoxClean
| DBoxStop
| DStepFinish.

(** The variables of [executePipeline] that are shared through pointers,
    and the deferred calls of the running function. *)
Record Locals := {
  defers : list Deferred;
  stepCounter : Z;
  pr : PipelineResult;
  sr : StepResult;
}.

Definition set_defers (d : list Deferred) (s : Locals) : Locals :=
  {| defers := d; stepCounter := stepCounter s; pr := pr s; sr := sr s |}.
Definition set_stepCounter (c : Z) (s : Locals) : Locals :=
  {| defers := defers s; stepCounter := c; pr := pr s; sr := sr s |}.
Definition set_pr (p : PipelineResult) (s : Locals) : Locals :=
  {| defers := defers s; stepCounter := stepCounter s; pr := p; sr := sr s |}.
Definition set_sr (r : StepResult) (s : Locals) : Locals :=
  {| defers := defers s; stepCounter := stepCounter s; pr := pr s; sr := r |}.

Definition set_pr_Success (b : bool) (p : PipelineResult) : PipelineResult :=
  {| pr_Success := b; pr_FailedStepName := pr_FailedStepName p;
     pr_FailedStepMessage := pr_FailedStepMessage p |}.
Definition set_pr_FailedStepName (n : string) (p : PipelineResult) : PipelineResult :=
  {| pr_Success := pr_Success p; pr_FailedStepName := n;
     pr_FailedStepMessage := pr_FailedStepMessage p |}.
Definition set_pr_FailedStepMessage (m : string) (p : PipelineResult) : PipelineResult :=
  {| pr_Success := pr_Success p; pr_FailedStepName := pr_FailedStepName p;
     pr_FailedStepMessage := m |}.

Definition zero_Locals : Locals :=
  {| defers := [];
     stepCounter := 0;
     pr := {| pr_Success := false; pr_FailedStepName := ""; pr_FailedStepMessage := "" |};
     sr := {| sr_Success := false; sr_Artifact := None; sr_Message := "";
              sr_PackageURL := ""; sr_ExitCode := 0 |} |}.

Abbreviation Run := (M Locals Action).

(** *** Statements *)

(** [defer f(args)]: the last call registered runs first. *)
Definition defer (d : Deferred) : Run unit :=
  modify (λ s, set_defers (d :: defers s) s).

Definition run_deferred (d : Deferred) : Run unit :=
  match d with
  | DFinish result => emit (Finisher_Finish result)
  | DBoxClean => emit Box_Clean
  | DBoxStop => emit Box_Stop
  | DStepFinish => s ← get; emit (StepFinisher_Finish (sr s))
  end.

(** Running the deferred calls when a function returns [r] or panics with
    [r]: all of them run; the panic of a deferred call replaces [r]. *)
Fixpoint run_defers {A} (ds : list Deferred) (r : Res A) (s : Locals)
  : Res A * Locals * list Action :=
  match ds with
  | [] => (r, s, [])
  | d :: ds' =>
      match run_deferred d s with
      | (rd, s1, t1) =>
          let r' := match rd with Val _ => r | Panic msg => Panic msg end in
          match run_defers ds' r' s1 with
          | (r'', s2, t2) => (r'', s2, t1 ++ t2)
          end
      end
  end.

(** A function call: the callee starts without deferred calls, runs its
    own when its body is left, by return or by panic, and the caller's come
    back. *)
Definition func {A} (body : Run A) : Run A := λ s,
  match body (set_defers [] s) with
  | (r, s1, t1) =>
      match run_defers (defers s1) r s1 with
      | (r', s2, t2) => (r', set_defers (defers s) s2, t1 ++ t2)
      end
  end.

(** logrus: [log.Println] logs at info level; [log.Panicln] logs at panic
    level and panics with the message. *)
Definition log_Println (v : list string) : Run unit := emit (Log InfoLevel (sprintln v)).
Definition log_Warnln (v : list string) : Run unit := emit (Log WarnLevel (sprintln v)).
Definition log_Errorln (v : list string) : Run unit := emit (Log ErrorLevel (sprintln v)).
Definition log_Panicln {A} (v : list string) : Run A :=
  emit (Log PanicLevel (sprintln v));; panic (sprintln v).

(** Modelled from the spec: [Counter.Increment], which is not among the
    sources; the counter "starts at 3" and the first user step has order 3,
    so [Increment] returns the current value and then adds one. *)
Definition Counter_Increment : Run Z :=
  s ← get;
  modify (set_stepCounter (wrap64 (stepCounter s + 1)));;
  ret (stepCounter s).

(** *** SoftExit *)

Record SoftExit := { SoftExit_options : GlobalOptions }.

Definition SoftExit_Exit (s : SoftExit) (v : list string) : Run error :=
  (if Debug (SoftExit_options s) then log_Panicln v else ret tt);;
  log_Errorln v;;
  ret (fmt_Errorf "Exiting.").

(** *** executePipeline *)

Definition storeStep : Step := {| Name := "store"; ID := ""; DisplayName := "" |}.

Section executePipeline.
Variable w : World.
Variable options : GlobalOptions.

Let soft : SoftExit := {| SoftExit_options := options |}.
Let repoName := w_DockerRepo w.
Let tag := w_DockerTag w.
Let message := w_DockerMessage w.

Definition box_Commit : Run unit := emit (Box_Commit repoName tag message).

  (** The loop over [pipeline.Steps()]. *)
Fixpoint userSteps (steps : list Step) : Run unit :=
    match steps with
    | [] => ret tt
    | step :: rest =>
        log_Println [];;
        log_Println ["============== Running Step ==============="];;
        log_Println [Name step; ID step];;
        log_Println ["==========================================="];;
        order ← Counter_Increment;
        let '(sr, err) := w_RunStep w ctx step order in
        emit (RunStep ctx step order err);;
        match err with
        | Some _ =>
            modify (λ s, set_pr (set_pr_Success false (pr s)) s);;
            modify (λ s, set_pr (set_pr_FailedStepName (DisplayName step) (pr s)) s);;
            modify (λ s, set_pr (set_pr_FailedStepMessage (sr_Message sr) (pr s)) s);;
            log_Warnln ["============== Step failed! ==============="]
            (* break *)
        | None =>
            log_Println ["============== Step passed! ==============="];;
            (if ShouldCommit options then box_Commit else ret tt);;
            userSteps rest
        end
    end.

  (** The function literal of the store phase.  [Some e] out of an inner
      block is its [return err]. *)
Definition storeFunc : Run error :=
    func (
      modify (set_sr {| sr_Success := false; sr_Artifact := None; sr_Message := "";
                        sr_PackageURL := ""; sr_ExitCode := 1 |});;
      order ← Counter_Increment;
      emit (StartStep storeStep order);;
      defer DStepFinish;;
      modify (λ s, set_pr (set_pr_FailedStepName (Name storeStep) (pr s)) s);;
      err ← (if ShouldPush options then
               modify (λ s, set_pr (set_pr_FailedStepMessage "Unable to push to registry" (pr s)) s);;
               let pushOptions :=
                 {| po_Registry := Registry options; po_Name := repoName;
                    po_Tag := tag; po_Message := message |} in
               let auth :=
                 if decide (AuthToken options ≠ "") then
                   {| Username := AuthToken options; Password := AuthToken options;
                      ServerAddress := Registry options |}
                 else {| Username := ""; Password := ""; ServerAddress := "" |} in
               emit (Box_Push pushOptions auth (w_Push w));;
               ret (w_Push w)
             else ret None);
      match err with
      | Some e => ret (Some e)
      | None =>
          s ← get;
          err ← (if pr_Success (pr s) && ShouldArtifacts options then
                   modify (λ s, set_pr (set_pr_FailedStepMessage "Unable to store pipeline output" (pr s)) s);;
                   emit (CollectArtifact (w_CollectArtifact w));;
                   match w_CollectArtifact w with
                   | inl e => ret (Some e)
                   | inr artifact =>
                       emit (Artificer_Upload artifact (w_Upload w artifact));;
                       match w_Upload w artifact with
                       | Some e => ret (Some e)
                       | None =>
                           modify (λ s, set_sr
                             {| sr_Success := sr_Success (sr s); sr_Artifact := sr_Artifact (sr s);
                                sr_Message := sr_Message (sr s); sr_PackageURL := URL artifact;
                                sr_ExitCode := sr_ExitCode (sr s) |} s);;
                           ret None
                       end
                   end
                 else ret None);
          match err with
          | Some e => ret (Some e)
          | None =>
              (* Everything went ok, so reset failed related fields *)
              modify (λ s, set_pr (set_pr_Success true (pr s)) s);;
              modify (λ s, set_pr (set_pr_FailedStepName "" (pr s)) s);;
              modify (λ s, set_pr (set_pr_FailedStepMessage "" (pr s)) s);;
              modify (λ s, set_sr
                {| sr_Success := true; sr_Artifact := sr_Artifact (sr s);
                   sr_Message := sr_Message (sr s); sr_PackageURL := sr_PackageURL (sr s);
                   sr_ExitCode := 0 |} s);;
              ret None
          end
      end).

  (** The store phase: the [if] around the function literal. *)
Definition storePhase : Run unit :=
    s ← get;
    if ShouldPush options || (pr_Success (pr s) && ShouldArtifacts options) then
      err ← storeFunc;
      match err with
      | Some _ =>
          modify (λ s, set_pr (set_pr_Success false (pr s)) s);;
          emit (Log ErrorLevel "Unable to store pipeline output")
      | None => ret tt
      end
    else ret tt.

Definition log_result : Run unit :=
    s ← get;
    if pr_Success (pr s) then log_Println ["########### Pipeline passed! ##############"]
    else log_Warnln ["########### Pipeline failed! ##############"].

  (** The loop over [pipeline.AfterSteps()]. *)
Fixpoint afterSteps (steps : list Step) : Run unit :=
    match steps with
    | [] => ret tt
    | step :: rest =>
        log_Println [];;
        log_Println ["=========== Running After Step ============"];;
        log_Println [Name step; ID step];;
        log_Println ["==========================================="];;
        order ← Counter_Increment;
        let '(_, err) := w_RunStep w newCtx step order in
        emit (RunStep newCtx step order err);;
        match err with
        | Some _ =>
            log_Warnln ["=========== After Step failed! ============"]
            (* break *)
        | None =>
            log_Println ["=========== After Step passed! ============"];;
            afterSteps rest
        end
    end.

  (** From [buildFinisher.Finish(pr.Success)] to the end of the function. *)
Definition finishAndAfterSteps : Run error :=
    s ← get;
    emit (Finisher_Finish (pr_Success (pr s)));;
    if decide (length (w_AfterSteps w) = 0) then ret None
    else
      log_Println ["########## Starting After Steps ###########"];;
      emit (Box_Restart (w_Restart w));;
      match w_Restart w with
      | Some e => log_Panicln [e]
      | None =>
          emit (GetSession (w_GetSession w));;
          match w_GetSession w with
          | Some e => log_Panicln [e]
          | None =>
              emit (Pipeline_ExportEnvironment (w_ExportEnvironment w));;
              match w_ExportEnvironment w with
              | Some e => ret (Some e)
              | None =>
                  s ← get;
                  emit (Result_ExportEnvironment (pr s) (w_ResultExportEnvironment w (pr s)));;
                  match w_ResultExportEnvironment w (pr s) with
                  | Some e => ret (Some e)
                  | None =>
                      afterSteps (w_AfterSteps w);;
                      log_result;;
                      s ← get;
                      if negb (pr_Success (pr s)) then
                        ret (fmt_Errorf ("Step failed: " +:+ pr_FailedStepName (pr s)))
                      else ret None
                  end
              end
          end
      end.

  (** From [p.StartBuild(options)] on.  [NewRunner] and [p.Emitter], which
      the function calls just before, make the runner and its emitter; the
      trace does not record them. *)
Definition pipelineBody : Run error :=
    emit StartBuild;;
    defer (DFinish false);;
    log_Println ["############ Executing Pipeline ############"];;
    emit DumpOptions;;
    log_Println ["############################################"];;
    emit (EnsureCode (w_EnsureCode w));;
    match w_EnsureCode w with
    | Some e => _ ← SoftExit_Exit soft [e]; ret tt
    | None => ret tt
    end;;
    emit (SetupEnvironment (w_SetupEnvironment w));;
    (if ctx_box (w_SetupEnvironment w) then
       (if ShouldRemove options then defer DBoxClean else ret tt);;
       defer DBoxStop
     else ret tt);;
    match setup_err (w_SetupEnvironment w) with
    | Some e => SoftExit_Exit soft [e]
    | None =>
        emit (Emit_BuildStepsAdded (w_Steps w) storeStep (w_AfterSteps w));;
        modify (set_pr {| pr_Success := true; pr_FailedStepName := "";
                          pr_FailedStepMessage := "" |});;
        modify (set_stepCounter 3);;
        userSteps (w_Steps w);;
        (if ShouldCommit options then box_Commit else ret tt);;
        storePhase;;
        log_result;;
        finishAndAfterSteps
    end.
End executePipeline.

Definition executePipeline (w : World) : Run error :=
  func (
    match w_NewGlobalOptions w with
    | inl e => log_Panicln [e]
    | inr options => pipelineBody w options
    end).

(** *** Observations on traces *)

(** [p.RunStep] has returned an error: on a user step, and on an
    after-step. *)
Definition is_user_step_failed (e : Action) : bool :=
  match e with RunStep ctx _ _ (Some _) => true | _ => false end.
Definition is_after_step_failed (e : Action) : bool :=
  match e with RunStep newCtx _ _ (Some _) => true | _ => false end.

(** [p.RunStep] on a user step, and on an after-step. *)
Definition is_user_RunStep (e : Action) : bool :=
  match e with RunStep ctx _ _ _ => true | _ => false end.
Definition is_after_RunStep (e : Action) : bool :=
  match e with RunStep newCtx _ _ _ => true | _ => false end.

(** [p.StartStep], which only the store phase calls. *)
Definition is_StartStep (e : Action) : bool :=
  match e with StartStep _ _ => true | _ => false end.

Definition is_Box_Stop (e : Action) : bool :=
  match e with Box_Stop => true | _ => false end.
Definition is_Box_Clean (e : Action) : bool :=
  match e with Box_Clean => true | _ => false end.

(** [p.SetupEnvironment()] has returned a context with a box. *)
Definition is_box_created (e : Action) : bool :=
  match e with SetupEnvironment res => ctx_box res | _ => false end.

Definition is_SetupEnvironment (e : Action) : bool :=
  match e with SetupEnvironment _ => true | _ => false end.
Definition is_EnsureCode_failed (e : Action) : bool :=
  match e with EnsureCode (Some _) => true | _ => false end.

(** [pr.ExportEnvironment(newSess)] has returned nil: the after-step loop
    is next. *)
Definition is_result_exported (e : Action) : bool :=
  match e with Result_ExportEnvironment _ None => true | _ => false end.

(** What the last [return] of [executePipeline] makes of a
    [PipelineResult]. *)
Definition result_error (p : PipelineResult) : error :=
  if pr_Success p then None
  else fmt_Errorf ("Step failed: " +:+ pr_FailedStepName p).

(** *** Kinds of events

    What each part of [executePipeline] can add to the trace. *)

(** The loop over the user steps. *)
Definition user_loop_action (e : Action) : bool :=
  match e with
  | Log _ _ | RunStep ctx _ _ _ | Box_Commit _ _ _ => true
  | _ => false
  end.

(** The loop over the after-steps. *)
Definition after_loop_action (e : Action) : bool :=
  match e with
  | Log _ _ | RunStep newCtx _ _ _ => true
  | _ => false
  end.

(** The store phase. *)
Definition store_action (e : Action) : bool :=
  match e with
  | StartStep _ _ | StepFinisher_Finish _ | Box_Push _ _ _
  | CollectArtifact _ | Artificer_Upload _ _ | Log _ _ => true
  | _ => false
  end.

(** From [buildFinisher.Finish(pr.Success)] on. *)
Definition after_phase_action (e : Action) : bool :=
  match e with
  | Finisher_Finish _ | Log _ _
  | Box_Restart _ | GetSession _ | Pipeline_ExportEnvironment _
  | Result_ExportEnvironment _ _ | RunStep newCtx _ _ _ => true
  | _ => false
  end.

(** [buildFinisher.Finish(true)]: the build is reported as passed. *)
Definition is_passed_Finish (e : Action) : bool :=
  match e with Finisher_Finish true => true | _ => false end.

(** The body of [executePipeline] calls neither [Box.Stop] nor [Box.Clean]:
    only its deferred calls do. *)
Definition body_action (e : Action) : bool :=
  negb (is_Box_Stop e) && negb (is_Box_Clean e).

(** The call a deferred call makes when it runs in the store [s]. *)
Definition deferred_action (s : Locals) (d : Deferred) : Action :=
  match d with
  | DFinish b => Finisher_Finish b
  | DBoxClean => Box_Clean
  | DBoxStop => Box_Stop
  | DStepFinish => StepFinisher_Finish (sr s)
  end.

(** A run of [executePipeline] from the start. *)
Definition run (w : World) : Res error * Locals * list Action :=
  executePipeline w zero_Locals.

(** What the specification says of the value a run returns: nil when the
    final [PipelineResult.Success] is true, and an error with the failed
    step's name when it is false. *)
Definition returns_the_result (r : Res error * Locals * list Action) : Prop :=
  (pr_Success (pr (final r)) = true → outcome r = Val None) ∧
  (pr_Success (pr (final r)) = false →
   outcome r = Val (fmt_Errorf ("Step failed: " +:+ pr_FailedStepName (pr (final r))))).

(** *** More observations on traces *)

Definition is_Box_Commit (e : Action) : bool :=
  match e with Box_Commit _ _ _ => true | _ => false end.

(** [p.RunStep] has returned nil on a user step. *)
Definition is_user_step_passed (e : Action) : bool :=
  match e with RunStep ctx _ _ None => true | _ => false end.

Definition is_BuildStepsAdded (e : Action) : bool :=
  match e with Emit_BuildStepsAdded _ _ _ => true | _ => false end.

(** [p.SetupEnvironment()] has returned an error. *)
Definition is_setup_failed (e : Action) : bool :=
  match e with SetupEnvironment (SetupFailed _ _) => true | _ => false end.

Definition is_CollectArtifact (e : Action) : bool :=
  match e with CollectArtifact _ => true | _ => false end.

(** The steps [p.RunStep] was called on with the context [c], in the order
    of the calls. *)
Definition step_of (c : Context_) (e : Action) : option Step :=
  match c, e with
  | ctx, RunStep ctx step _ _ => Some step
  | newCtx, RunStep newCtx step _ _ => Some step
  | _, _ => None
  end.
Definition steps_run (c : Context_) (t : list Action) : list Step := omap (step_of c) t.

(** The results [buildFinisher.Finish] was called with, in the order of the
    calls. *)
Definition finish_of (e : Action) : option bool :=
  match e with Finisher_Finish result => Some result | _ => None end.
Definition finishes (t : list Action) : list bool := omap finish_of t.

(** The [PipelineResult]s exported to the session of the after-steps. *)
Definition export_of (e : Action) : option PipelineResult :=
  match e with Result_ExportEnvironment p _ => Some p | _ => None end.
Definition exported (t : list Action) : list PipelineResult := omap export_of t.

(** The error of an export to the new session that has failed:
    [pipeline.ExportEnvironment] or [pr.ExportEnvironment]. *)
Definition export_error_of (e : Action) : option string :=
  match e with
  | Pipeline_ExportEnvironment (Some err) | Result_ExportEnvironment _ (Some err) => Some err
  | _ => None
  end.

(** The [StepResult]s the store step was finished with. *)
Definition step_finish_of (e : Action) : option StepResult :=
  match e with StepFinisher_Finish r => Some r | _ => None end.
Definition step_finishes (t : list Action) : list StepResult := omap step_finish_of t.

(** The artifacts whose upload has succeeded. *)
Definition upload_of (e : Action) : option Artifact :=
  match e with Artificer_Upload a None => Some a | _ => None end.
Definition uploaded (t : list Action) : list Artifact := omap upload_of t.

(** What [executePipeline] can add to the trace before the steps are
    announced. *)
Definition before_steps_action (e : Action) : bool :=
  match e with
  | StartBuild | Log _ _ | DumpOptions | EnsureCode _ | SetupEnvironment _ => true
  | _ => false
  end.

(** What it can add after [buildFinisher.Finish(pr.Success)]. *)
Definition after_finish_action (e : Action) : bool :=
  match e with
  | Log _ _ | Box_Restart _ | GetSession _ | Pipeline_ExportEnvironment _
  | Result_ExportEnvironment _ _ | RunStep newCtx _ _ _ => true
  | _ => false
  end.

End main.

(** *** Concrete runs *)

Module main_examples.
Import main.

Definition options0 : GlobalOptions :=
  {| Debug := false; ShouldRemove := true; ShouldCommit := false;
     ShouldPush := false; ShouldArtifacts := false;
     Registry := "registry"; AuthToken := "" |}.

Definition stepA : Step := {| Name := "a"; ID := "1"; DisplayName := "A-display" |}.
Definition stepB : Step := {| Name := "b"; ID := "2"; DisplayName := "B-display" |}.
Definition stepZ : Step := {| Name := "z"; ID := "9"; DisplayName := "Z-display" |}.

Definition passed : StepResult * error :=
  ({| sr_Success := true; sr_Artifact := None; sr_Message := "";
      sr_PackageURL := ""; sr_ExitCode := 0 |}, None).
Definition failed : StepResult * error :=
  ({| sr_Success := false; sr_Artifact := None; sr_Message := "oops";
      sr_PackageURL := ""; sr_ExitCode := 1 |}, Some "exit status 1").

(** Steps [A, B], no after-steps, every call succeeds. *)
Definition world0 : World :=
  {| w_NewGlobalOptions := inr options0;
     w_EnsureCode := None;
     w_SetupEnvironment := SetupOk;
     w_Steps := [stepA; stepB];
     w_AfterSteps := [];
     w_DockerRepo := "owner/app";
     w_DockerTag := "latest";
     w_DockerMessage := "build";
     w_RunStep := λ _ _ _, passed;
     w_Push := None;
     w_CollectArtifact := inr {| URL := "http://store/artifact" |};
     w_Upload := λ _, None;
     w_Restart := None;
     w_GetSession := None;
     w_ExportEnvironment := None;
     w_ResultExportEnvironment := λ _, None |}.

Definition with_options (o : GlobalOptions) (w : World) : World :=
  {| w_NewGlobalOptions := inr o;
     w_EnsureCode := w_EnsureCode w;
     w_SetupEnvironment := w_SetupEnvironment w;
     w_Steps := w_Steps w;
     w_AfterSteps := w_AfterSteps w;
     w_DockerRepo := w_DockerRepo w;
     w_DockerTag := w_DockerTag w;
     w_DockerMessage := w_DockerMessage w;
     w_RunStep := w_RunStep w;
     w_Push := w_Push w;
     w_CollectArtifact := w_CollectArtifact w;
     w_Upload := w_Upload w;
     w_Restart := w_Restart w;
     w_GetSession := w_GetSession w;
     w_ExportEnvironment := w_ExportEnvironment w;
     w_ResultExportEnvironment := w_ResultExportEnvironment w |}.

Definition with_steps (steps afterSteps : list Step)
    (runStep : Context_ → Step → Z → StepResult * error) (w : World) : World :=
  {| w_NewGlobalOptions := w_NewGlobalOptions w;
     w_EnsureCode := w_EnsureCode w;
     w_SetupEnvironment := w_SetupEnvironment w;
     w_Steps := steps;
     w_AfterSteps := afterSteps;
     w_DockerRepo := w_DockerRepo w;
     w_DockerTag := w_DockerTag w;
     w_DockerMessage := w_DockerMessage w;
     w_RunStep := runStep;
     w_Push := w_Push w;
     w_CollectArtifact := w_CollectArtifact w;
     w_Upload := w_Upload w;
     w_Restart := w_Restart w;
     w_GetSession := w_GetSession w;
     w_ExportEnvironment := w_ExportEnvironment w;
     w_ResultExportEnvironment := w_ResultExportEnvironment w |}.

(** User step [A] fails; after-step [Z] passes. *)
Definition A_fails : Context_ → Step → Z → StepResult * error :=
  λ c _ _, match c with ctx => failed | newCtx => passed end.

(** User steps pass; after-step [Z] fails. *)
Definition Z_fails : Context_ → Step → Z → StepResult * error :=
  λ c _ _, match c with ctx => passed | newCtx => failed end.

(** [--push], step [A] fails, the push succeeds. *)
Definition world_push_after_failure : World :=
  with_options
    {| Debug := false; ShouldRemove := true; ShouldCommit := false;
       ShouldPush := true; ShouldArtifacts := false;
       Registry := "registry"; AuthToken := "" |}
    (with_steps [stepA; stepB] [stepZ] A_fails world0).

(** Step [A] fails, there are no after-steps. *)
Definition world_step_fails : World := with_steps [stepA; stepB] [] A_fails world0.

(** Step [A] fails, after-step [Z] runs. *)
Definition world_step_fails_after : World :=
  with_steps [stepA; stepB] [stepZ] A_fails world0.

(** The steps pass, after-steps [Z, Z]: the first [Z] fails. *)
Definition world_after_step_fails : World :=
  with_steps [stepA; stepB] [stepZ; stepZ] Z_fails world0.

(** The steps pass; exporting the environment to the new session fails. *)
Definition world_export_fails : World :=
  {| w_NewGlobalOptions := inr options0;
     w_EnsureCode := None;
     w_SetupEnvironment := SetupOk;
     w_Steps := [stepA; stepB];
     w_AfterSteps := [stepZ];
     w_DockerRepo := "owner/app";
     w_DockerTag := "latest";
     w_DockerMessage := "build";
     w_RunStep := λ _ _ _, passed;
     w_Push := None;
     w_CollectArtifact := inr {| URL := "http://store/artifact" |};
     w_Upload := λ _, None;
     w_Restart := None;
     w_GetSession := None;
     w_ExportEnvironment := Some "session closed";
     w_ResultExportEnvironment := λ _, None |}.

(** [EnsureCode] fails, outside debug mode. *)
Definition world_no_code : World :=
  {| w_NewGlobalOptions := inr options0;
     w_EnsureCode := Some "unable to fetch code";
     w_SetupEnvironment := SetupOk;
     w_Steps := [stepA];
     w_AfterSteps := [];
     w_DockerRepo := "owner/app";
     w_DockerTag := "latest";
     w_DockerMessage := "build";
     w_RunStep := λ _ _ _, passed;
     w_Push := None;
     w_CollectArtifact := inr {| URL := "http://store/artifact" |};
     w_Upload := λ _, None;
     w_Restart := None;
     w_GetSession := None;
     w_ExportEnvironment := None;
     w_ResultExportEnvironment := λ _, None |}.

(** [EnsureCode] fails, in debug mode. *)
Definition world_no_code_debug : World :=
  with_options
    {| Debug := true; ShouldRemove := true; ShouldCommit := false;
       ShouldPush := false; ShouldArtifacts := false;
       Registry := "registry"; AuthToken := "" |}
    world_no_code.

(** The box is created, then [SetupEnvironment] fails, in debug mode. *)
Definition world_setup_panics : World :=
  {| w_NewGlobalOptions :=
       inr {| Debug := true; ShouldRemove := true; ShouldCommit := false;
              ShouldPush := false; ShouldArtifacts := false;
              Registry := "registry"; AuthToken := "" |};
     w_EnsureCode := None;
     w_SetupEnvironment := SetupFailed true "no session";
     w_Steps := [stepA];
     w_AfterSteps := [];
     w_DockerRepo := "owner/app";
     w_DockerTag := "latest";
     w_DockerMessage := "build";
     w_RunStep := λ _ _ _, passed;
     w_Push := None;
     w_CollectArtifact := inr {| URL := "http://store/artifact" |};
     w_Upload := λ _, None;
     w_Restart := None;
     w_GetSession := None;
     w_ExportEnvironment := None;
     w_ResultExportEnvironment := λ _, None |}.

Definition options_push : GlobalOptions :=
  {| Debug := false; ShouldRemove := true; ShouldCommit := false;
     ShouldPush := true; ShouldArtifacts := false;
     Registry := "registry"; AuthToken := "" |}.

Definition options_commit : GlobalOptions :=
  {| Debug := false; ShouldRemove := false; ShouldCommit := true;
     ShouldPush := false; ShouldArtifacts := false;
     Registry := "registry"; AuthToken := "" |}.

Definition options_push_artifacts : GlobalOptions :=
  {| Debug := false; ShouldRemove := true; ShouldCommit := false;
     ShouldPush := true; ShouldArtifacts := true;
     Registry := "registry"; AuthToken := "token" |}.

(** [--commit] without [--rm]; step [A] fails. *)
Definition world_keep_box : World :=
  with_options options_commit (with_steps [stepA; stepB] [] A_fails world0).

(** [SetupEnvironment] fails after the box is created, outside debug mode. *)
Definition world_setup_fails : World :=
  {| w_NewGlobalOptions := inr options0;
     w_EnsureCode := None;
     w_SetupEnvironment := SetupFailed true "no session";
     w_Steps := [stepA];
     w_AfterSteps := [stepZ];
     w_DockerRepo := "owner/app";
     w_DockerTag := "latest";
     w_DockerMessage := "build";
     w_RunStep := λ _ _ _, passed;
     w_Push := None;
     w_CollectArtifact := inr {| URL := "http://store/artifact" |};
     w_Upload := λ _, None;
     w_Restart := None;
     w_GetSession := None;
     w_ExportEnvironment := None;
     w_ResultExportEnvironment := λ _, None |}.

(** [--push] and [--artifacts]; the steps pass and the push fails. *)
Definition world_push_fails : World :=
  {| w_NewGlobalOptions := inr options_push_artifacts;
     w_EnsureCode := None;
     w_SetupEnvironment := SetupOk;
     w_Steps := [stepA];
     w_AfterSteps := [];
     w_DockerRepo := "owner/app";
     w_DockerTag := "latest";
     w_DockerMessage := "build";
     w_RunStep := λ _ _ _, passed;
     w_Push := Some "registry rejected the push";
     w_CollectArtifact := inr {| URL := "http://store/artifact" |};
     w_Upload := λ _, None;
     w_Restart := None;
     w_GetSession := None;
     w_ExportEnvironment := None;
     w_ResultExportEnvironment := λ _, None |}.

End main_examples.

(** ** Package main: the other commands

    [detect], [login], [pull] and [inspect] call [os.Exit] besides returning
    and panicking: a command is a computation whose value is an exit code or
    a result. *)

Module cli.
Import main.

(** The fields of [GlobalOptions] that these commands read. *)
Record Options := {
  o_Debug : bool;
  WerckerEndpoint : string;
  BaseURL : string;
  AuthTokenStore : string;
  o_AuthToken : string;
  o_Registry : string;
  ApplicationOwnerName : string;
  ApplicationName : string;
  Tag : string;
}.

Record PullImageOptions := {
  Repository : string;
  pi_Registry : string;
  pi_Tag : string;
}.

(** The calls of the commands, with what the callee answered. *)
Inductive Call :=
| Log (lvl : Level) (msg : string)
| os_Open (name : string) (err : error)
| File_Readdir (names : list string) (err : error)
| File_Close
| os_Stat (name : string) (err : error)
| askForConfirmation (answer : bool)
| http_Get (url : string) (err : error)
| ioutil_ReadAll (body : string) (err : error)
| Body_Close
| ioutil_WriteFile (name : string) (data : string) (perm : Z) (err : error)
| readUsername (username : string)
| readPassword (password : string)
| getAccessToken (username password url : string) (res : string + string)
| saveToken (store token : string) (err : error)
| dumpOptions
| NewDockerClient (err : error)
| PullImage (opts : PullImageOptions) (auth : AuthConfiguration) (err : error)
| RunAndAttach (name : string) (err : error).

(** The answers of what the commands call, and the arguments of the
    command line.  [filepath_Ext] is Go's [filepath.Ext]. *)
Record Env := {
  e_NewGlobalOptions : string + Options;
  e_Args : list string;
  filepath_Ext : string → string;
  e_Open : error;
  e_Readdir : list string * error;
  e_Stat : error;
  e_askForConfirmation : bool;
  e_Get : error;
  e_ReadAll : string * error;
  e_WriteFile : error;
  e_readUsername : string;
  e_readPassword : string;
  e_getAccessToken : string + string;
  e_saveToken : error;
  e_NewDockerClient : error;
  e_PullImage : error;
  e_RunAndAttach : error;
}.

(** *** Commands *)

(** The store of a command holds the calls its function has deferred, the
    last one first.  Its value is [inl code] after [os.Exit(code)]. *)
Abbreviation Cmd A := (M (list Call) Call (Z + A)).

Definition cret {A} (a : A) : Cmd A := ret (inr a).

Definition cbind {A B} (m : Cmd A) (k : A → Cmd B) : Cmd B :=
  bind m (λ x, match x with inl code => ret (inl code) | inr a => k a end).

Definition os_Exit {A} (code : Z) : Cmd A := ret (inl code).

Definition call (c : Call) : Cmd unit := emit c;; cret tt.

Definition defer_call (c : Call) : Cmd unit := modify (cons c);; cret tt.

(** A function call: the deferred calls run when the body returns or
    panics, and do not run when it has called [os.Exit]. *)
Definition cfunc {A} (body : Cmd A) : Cmd A := λ d,
  match body [] with
  | (Val (inl code), _, t) => (Val (inl code), d, t)
  | (r, d1, t) => (r, d, t ++ d1)
  end.

Declare Scope cmd_scope.
Notation "x ← m ; k" := (cbind m (λ x, k))
  (at level 20, m at level 100, k at level 200, only parsing) : cmd_scope.
Notation "m ;; k" := (cbind m (λ _, k))
  (at level 100, k at level 200, right associativity, only parsing) : cmd_scope.
Local Open Scope cmd_scope.

Definition log_Println (v : list string) : Cmd unit := call (Log InfoLevel (sprintln v)).
Definition log_Error (msg : string) : Cmd unit := call (Log ErrorLevel msg).
Definition log_Panicln {A} (v : list string) : Cmd A :=
  call (Log PanicLevel (sprintln v));; panic (sprintln v).

(** [SoftExit.Exit], as in [main], in a command. *)
Definition SoftExit_Exit (options : Options) (v : list string) : Cmd error :=
  (if o_Debug options then log_Panicln v else cret tt);;
  call (Log ErrorLevel (sprintln v));;
  cret (fmt_Errorf "Exiting.").

(** [c.Args().Get(n)]: the empty string when there is no such argument. *)
Definition Args_Get (args : list string) (n : nat) : string := nth n args "".

(** *** detect *)

(** The [switch] of [detectProject] on one file name: the language it
    stands for, if any. *)
Definition language (Ext : string → string) (name : string) : option string :=
  if decide (name = "package.json") then Some "nodejs"
  else if decide (name = "requirements.txt") then Some "python"
  else if decide (name = "Gemfile") then Some "ruby"
  else if decide (Ext name = ".go") then Some "golang"
  else None.

(** The loop of [detectProject], which stops at the first file that stands
    for a language; [""] when there is none. *)
Fixpoint detect (Ext : string → string) (files : list string) : string :=
  match files with
  | [] => ""
  | f :: rest =>
      match language Ext f with
      | Some detected => detected
      | None => detect Ext rest
      end
  end.

Section commands.
Variable e : Env.

Definition getYml (detected : string) (options : Options) : Cmd unit :=
  cfunc (
    let yml := "wercker.yml" in
    call (os_Stat yml (e_Stat e));;
    (if decide (e_Stat e = None) then
       log_Println [yml; "already exists. Do you want to overwrite? (yes/no)"];;
       call (askForConfirmation (e_askForConfirmation e));;
       if negb (e_askForConfirmation e) then
         log_Println ["Exiting..."];;
         os_Exit 1
       else cret tt
     else cret tt);;
    let url := WerckerEndpoint options +:+ "/yml/" +:+ detected in
    call (http_Get url (e_Get e));;
    (if decide (e_Get e ≠ None) then
       log_Error "Unable to reach wercker API";;
       os_Exit 1
     else cret tt);;
    defer_call Body_Close;;
    let '(body, err) := e_ReadAll e in
    call (ioutil_ReadAll body err);;
    (if decide (err ≠ None) then log_Error "Unable to read response" else cret tt);;
    call (ioutil_WriteFile "wercker.yml" body 420 (e_WriteFile e));;
    (if decide (e_WriteFile e ≠ None) then log_Error "Unable to write wercker.yml file"
     else cret tt)).

Definition detectProject : Cmd unit :=
  cfunc (
    match e_NewGlobalOptions e with
    | inl err => log_Panicln [err]
    | inr options =>
        log_Println ["########### Detecting your project! #############"];;
        call (os_Open "." (e_Open e));;
        match e_Open e with
        | Some err =>
            log_Error "Unable to open directory";;
            _ ← SoftExit_Exit options [err]; cret tt
        | None => cret tt
        end;;
        defer_call File_Close;;
        let '(files, err) := e_Readdir e in
        call (File_Readdir files err);;
        match err with
        | Some err =>
            log_Error "Unable to read directory";;
            _ ← SoftExit_Exit options [err]; cret tt
        | None => cret tt
        end;;
        let detected := detect (filepath_Ext e) files in
        detected ←
          (if decide (detected = "") then
             log_Println ["No stack detected, generating default wercker.yml"];;
             cret "default"
           else
             log_Println ["Detected:"; detected];;
             log_Println ["Generating wercker.yml"];;
             cret detected);
        getYml detected options
    end).

(** *** login *)

Definition login : Cmd error :=
  cfunc (
    match e_NewGlobalOptions e with
    | inl err => log_Panicln [err]
    | inr options =>
        log_Println ["########### Logging into wercker! #############"];;
        let url := BaseURL options +:+ "/api/1.0/" +:+ "oauth/basicauthaccesstoken" in
        let username := e_readUsername e in
        call (readUsername username);;
        let password := e_readPassword e in
        call (readPassword password);;
        call (getAccessToken username password url (e_getAccessToken e));;
        match e_getAccessToken e with
        | inl err =>
            log_Error "Unable to log into wercker";;
            SoftExit_Exit options [err]
        | inr token =>
            log_Println ["Saving token to: "; AuthTokenStore options];;
            call (saveToken (AuthTokenStore options) token (e_saveToken e));;
            cret (e_saveToken e)
        end
    end).

(** *** pull *)

Definition pull : Cmd error :=
  cfunc (
    match e_NewGlobalOptions e with
    | inl err => log_Panicln [err]
    | inr options =>
        call dumpOptions;;
        call (NewDockerClient (e_NewDockerClient e));;
        match e_NewDockerClient e with
        | Some err => SoftExit_Exit options [err]
        | None =>
            let auth :=
              if decide (o_AuthToken options ≠ "") then
                {| Username := o_AuthToken options; Password := o_AuthToken options;
                   ServerAddress := o_Registry options |}
              else {| Username := ""; Password := ""; ServerAddress := "" |} in
            let repo := Args_Get (e_Args e) 0 in
            let tag := Args_Get (e_Args e) 1 in
            log_Println ["Repo: "; repo];;
            log_Println ["Tag: "; tag];;
            let opts :=
              {| Repository := o_Registry options +:+ "/" +:+ repo;
                 pi_Registry := o_Registry options;
                 pi_Tag := if decide (tag ≠ "") then tag else "" |} in
            call (PullImage opts auth (e_PullImage e));;
            match e_PullImage e with
            | Some err => log_Panicln [err]
            | None => cret None
            end
        end
    end).

(** *** inspect *)

Definition inspect : Cmd error :=
  cfunc (
    match e_NewGlobalOptions e with
    | inl err => log_Panicln [err]
    | inr options =>
        let repoName := ApplicationOwnerName options +:+ "/" +:+ ApplicationName options in
        let tag := Tag options in
        call (NewDockerClient (e_NewDockerClient e));;
        match e_NewDockerClient e with
        | Some err => cret (Some err)
        | None =>
            call (RunAndAttach (repoName +:+ ":" +:+ tag) (e_RunAndAttach e));;
            cret (e_RunAndAttach e)
        end
    end).

(** The user is asked about an existing wercker.yml and says no. *)
Definition declined : bool :=
  bool_decide (e_Stat e = None) && negb (e_askForConfirmation e).

(** [getYml] calls [os.Exit]: the user has declined, or the request has
    failed. *)
Definition getYml_exits : bool := declined || bool_decide (e_Get e ≠ None).

(** In debug mode, [detectProject] panics on an error of the directory. *)
Definition directory_panics (options : Options) : bool :=
  o_Debug options && bool_decide (e_Open e ≠ None ∨ (e_Readdir e).2 ≠ None).

(** The name of the yml that [detectProject] asks for. *)
Definition detected_or_default : string :=
  let detected := detect (filepath_Ext e) (e_Readdir e).1 in
  if decide (detected = "") then "default" else detected.

End commands.

(** *** Observations *)

(** A command run from the start. *)
Definition run {A} (c : Cmd A) : Res (Z + A) * list Call * list Call := c [].

Definition is_http_Get (c : Call) : bool :=
  match c with http_Get _ _ => true | _ => false end.
Definition is_WriteFile (c : Call) : bool :=
  match c with ioutil_WriteFile _ _ _ _ => true | _ => false end.
Definition is_Body_Close (c : Call) : bool :=
  match c with Body_Close => true | _ => false end.
Definition is_File_Close (c : Call) : bool :=
  match c with File_Close => true | _ => false end.
Definition is_saveToken (c : Call) : bool :=
  match c with saveToken _ _ _ => true | _ => false end.

(** The URLs requested, and the data written, in the order of the calls. *)
Definition url_of (c : Call) : option string :=
  match c with http_Get url _ => Some url | _ => None end.
Definition written_of (c : Call) : option (string * string * Z) :=
  match c with ioutil_WriteFile name data perm _ => Some (name, data, perm) | _ => None end.

(** What [getAccessToken] was asked, what [saveToken] was given, and what
    the Docker client was asked to pull. *)
Definition token_request_of (c : Call) : option (string * string * string) :=
  match c with
  | getAccessToken username password url _ => Some (username, password, url)
  | _ => None
  end.
Definition saved_of (c : Call) : option (string * string) :=
  match c with saveToken store token _ => Some (store, token) | _ => None end.
Definition pulled_of (c : Call) : option (PullImageOptions * AuthConfiguration) :=
  match c with PullImage opts auth _ => Some (opts, auth) | _ => None end.

End cli.

Module cli_examples.
Import main cli.

Definition options0 : Options :=
  {| o_Debug := false; WerckerEndpoint := "https://app.wercker.com/api/v2";
     BaseURL := "https://app.wercker.com"; AuthTokenStore := "~/.wercker/token";
     o_AuthToken := ""; o_Registry := "registry"; ApplicationOwnerName := "owner";
     ApplicationName := "app"; Tag := "latest" |}.

(** An extension function for the examples: the names that end in ".go". *)
Definition ext (name : string) : string :=
  if decide (name = "main.go") then ".go" else "".

(** A directory with a Go file before a Gemfile; no wercker.yml yet. *)
Definition env0 : Env :=
  {| e_NewGlobalOptions := inr options0;
     e_Args := ["owner/app"];
     filepath_Ext := ext;
     e_Open := None;
     e_Readdir := (["README"; "main.go"; "Gemfile"], None);
     e_Stat := Some "no such file";
     e_askForConfirmation := false;
     e_Get := None;
     e_ReadAll := ("box: golang", None);
     e_WriteFile := None;
     e_readUsername := "user";
     e_readPassword := "secret";
     e_getAccessToken := inr "token";
     e_saveToken := None;
     e_NewDockerClient := None;
     e_PullImage := None;
     e_RunAndAttach := None |}.

(** The same with a wercker.yml that the user does not want overwritten. *)
Definition env_declined : Env :=
  {| e_NewGlobalOptions := inr options0;
     e_Args := ["owner/app"];
     filepath_Ext := ext;
     e_Open := None;
     e_Readdir := (["README"; "main.go"; "Gemfile"], None);
     e_Stat := None;
     e_askForConfirmation := false;
     e_Get := None;
     e_ReadAll := ("box: golang", None);
     e_WriteFile := None;
     e_readUsername := "user";
     e_readPassword := "secret";
     e_getAccessToken := inr "token";
     e_saveToken := None;
     e_NewDockerClient := None;
     e_PullImage := None;
     e_RunAndAttach := None |}.

(** The directory cannot be opened nor read. *)
Definition env_no_directory : Env :=
  {| e_NewGlobalOptions := inr options0;
     e_Args := [];
     filepath_Ext := ext;
     e_Open := Some "permission denied";
     e_Readdir := ([], Some "invalid argument");
     e_Stat := Some "no such file";
     e_askForConfirmation := false;
     e_Get := None;
     e_ReadAll := ("box: ubuntu", Some "unexpected EOF");
     e_WriteFile := None;
     e_readUsername := "user";
     e_readPassword := "secret";
     e_getAccessToken := inl "401";
     e_saveToken := None;
     e_NewDockerClient := None;
     e_PullImage := Some "not found";
     e_RunAndAttach := None |}.

End cli_examples.

(** ** Package event: the metrics handler *)

Module event.

(** What the handler takes from Go's [time] package and from [util]:
    instants, [Time.Sub] (a [Duration], in nanoseconds), the whole seconds
    [int64(d.Seconds())] of a duration, [Time.Format(time.RFC3339)],
    [Time.Unix], and [util.GetVersions]. *)
Class Lib := {
  Time : Type;
  Time_zero : Time;
  Time_Sub : Time → Time → Z;
  Duration_Seconds : Z → Z;
  Time_Format_RFC3339 : Time → string;
  Time_Unix : Time → Z;
  Versions : Type;
  GetVersions : Versions;
}.

(** *** Data *)

(** The fields of [core.PipelineOptions] that the handler reads. *)
Record PipelineOptions := {
  (** Modelled from the spec: the debug mode of the options, which the
      sources of the handler never read. *)
  Debug : bool;
  KeenProjectWriteKey : string;
  KeenProjectID : string;
  BuildID : string;
  DeployID : string;
  ApplicationID : string;
  ApplicationName : string;
  ApplicationOwnerName : string;
  ApplicationStartedByName : string;
}.

(** A [core.Step], by what its methods return. *)
Record Step := {
  Owner : string;
  Name : string;
  Version : string;
  SafeID : string;
}.

(** A [core.Box] that is not nil, by what its methods return. *)
Record Box := {
  GetName : string;
  GetTag : string;
}.

Record keen_Client := {
  WriteKey : string;
  ProjectID : string;
}.

Record metricsKeenPayload := { keen_Timestamp : string }.

Record metricsApplicationPayload := {
  app_ID : string;
  app_Name : string;
  app_OwnerName : string;
}.

Record metricStepPayload := {
  step_Owner : string;
  step_Name : string;
  step_Version : string;
  step_FullName : string;
  step_UniqueName : string;
}.

Section handler.
Context `{Lib}.

(** Pointer fields are options: [None] is nil. *)
Record MetricsPayload := {
  Keen : option metricsKeenPayload;
  Timestamp : Z;
  Event : string;
  Stack : Z;
  SentCli : option Versions;
  Grappler : option Versions;
  PipelineName : string;
  p_BuildID : string;
  p_DeployID : string;
  NumBuildSteps : Z;
  NumBuildAfterSteps : Z;
  NumDeploySteps : Z;
  NumDeployAfterSteps : Z;
  BoxName : string;
  BoxTag : string;
  p_Step : option metricStepPayload;
  StepName : string;
  StepOrder : Z;
  Success : option bool;
  Message : string;
  Duration : option Z;
  StartedBy : string;
  VCS : string;
  p_MetricsApplicationPayload : option metricsApplicationPayload;
}.

(** [startStep] is a Go map: [None] is the nil map. *)
Record MetricsEventHandler := {
  keen : keen_Client;
  startStep : option (gmap string Time);
  startBuild : Time;
  versions : Versions;
  numBuildSteps : Z;
  numBuildAfterSteps : Z;
  numDeploySteps : Z;
  numDeployAfterSteps : Z;
}.

Record BuildStartedArgs := { bs_Options : PipelineOptions }.

Record BuildFinishedArgs := {
  bf_Options : PipelineOptions;
  bf_Box : option Box;
  bf_Result : string;
}.

Record BuildStepStartedArgs := {
  ss_Options : PipelineOptions;
  ss_Box : option Box;
  ss_Step : Step;
  ss_Order : Z;
}.

Record BuildStepFinishedArgs := {
  sf_Options : PipelineOptions;
  sf_Box : option Box;
  sf_Step : Step;
  sf_Order : Z;
  sf_Successful : bool;
  sf_Message : string;
}.

Record BuildStepsAddedArgs := {
  sa_Options : PipelineOptions;
  sa_Steps : list Step;
  sa_AfterSteps : list Step;
}.

Record sendPayloadArgs := {
  p : MetricsPayload;
  options : PipelineOptions;
  box : option Box;
  now : Time;
  eventName : string;
}.

(** What leaves the handler: events added to keen, and log entries at panic
    level. *)
Inductive Sent :=
| AddEvent (collection : string) (payload : MetricsPayload)
| LogPanic (msg : string).

(** A method of the handler: the store is the handler [h]. *)
Abbreviation Handler := (M MetricsEventHandler Sent).

(** *** Go maps *)

Definition map_index (m : option (gmap string Time)) (k : string) : option Time :=
  m ≫= (λ m, m !! k).

(** [delete(m, k)]; on a nil map it does nothing. *)
Definition map_delete (m : option (gmap string Time)) (k : string)
  : option (gmap string Time) := delete k <$> m.

(** [m[k] = v]; on a nil map it panics. *)
Definition map_assign (m : option (gmap string Time)) (k : string) (v : Time)
  : Res (option (gmap string Time)) :=
  match m with
  | None => Panic "assignment to entry in nil map"
  | Some m => Val (Some (<[k:=v]> m))
  end.

(** *** The handler *)

Definition NewMetricsHandler (opts : PipelineOptions)
  : option MetricsEventHandler * error :=
  if decide ("" = KeenProjectWriteKey opts) then
    (None, Some "No KeenProjectWriteKey specified")
  else if decide ("" = KeenProjectID opts) then
    (None, Some "No KeenProjectID specified")
  else
    let keenInstance :=
      {| WriteKey := KeenProjectWriteKey opts; ProjectID := KeenProjectID opts |} in
    let versions := GetVersions in
    (Some {| keen := keenInstance;
             versions := versions;
             startStep := Some ∅;
             startBuild := Time_zero;
             numBuildSteps := 0;
             numBuildAfterSteps := 0;
             numDeploySteps := 0;
             numDeployAfterSteps := 0 |},
     None).

Definition newMetricsKeenPayload (now : Time) : metricsKeenPayload :=
  {| keen_Timestamp := Time_Format_RFC3339 now |}.

Definition formatUniqueStepName (step : Step) : string :=
  Owner step +:+ "/" +:+ Name step +:+ "@" +:+ Version step.

Definition newMetricStepPayload (step : Step) : metricStepPayload :=
  {| step_Owner := Owner step;
     step_Name := Name step;
     step_Version := Version step;
     step_FullName := Owner step +:+ "/" +:+ Name step;
     step_UniqueName := formatUniqueStepName step |}.

(** [util.RootLogger().WithField(...).Panic(msg)]: logs, then panics. *)
Definition logger_Panic {A} (msg : string) : Handler A :=
  emit (LogPanic msg);; panic msg.

Definition getPipelineName (options : PipelineOptions) : Handler string :=
  if decide (BuildID options ≠ "") then ret "build"
  else if decide (DeployID options ≠ "") then ret "deploy"
  else
    logger_Panic (A:=unit) "Metrics is only able to send metrics for builds or deploys";;
    ret "".

Definition getCollection (options : PipelineOptions) : Handler string :=
  if decide (BuildID options ≠ "") then ret "build-events"
  else if decide (DeployID options ≠ "") then ret "deploy-events"
  else
    logger_Panic (A:=unit) "Metrics is only able to send metrics for builds or deploys";;
    ret "".

Definition getBoxDetails (box : option Box) : string * string :=
  match box with
  | None => ("", "")
  | Some box => (GetName box, GetTag box)
  end.

(** The zero value of [MetricsPayload]. *)
Definition zero_MetricsPayload : MetricsPayload :=
  {| Keen := None; Timestamp := 0; Event := ""; Stack := 0; SentCli := None;
     Grappler := None; PipelineName := ""; p_BuildID := ""; p_DeployID := "";
     NumBuildSteps := 0; NumBuildAfterSteps := 0; NumDeploySteps := 0;
     NumDeployAfterSteps := 0; BoxName := ""; BoxTag := ""; p_Step := None;
     StepName := ""; StepOrder := 0; Success := None; Message := "";
     Duration := None; StartedBy := ""; VCS := "";
     p_MetricsApplicationPayload := None |}.

Definition sendPayload (args : sendPayloadArgs) : Handler unit :=
  collection ← getCollection (options args);
  pipelineName ← getPipelineName (options args);
  let '(boxName, boxTag) := getBoxDetails (box args) in
  let p := p args in
  h ← get;
  let p :=
    {| Keen := Some (newMetricsKeenPayload (now args));
       Timestamp := Time_Unix (now args);
       p_BuildID := BuildID (options args);
       p_DeployID := DeployID (options args);
       Event := eventName args;
       StartedBy := ApplicationStartedByName (options args);
       p_MetricsApplicationPayload :=
         Some {| app_ID := ApplicationID (options args);
                 app_Name := ApplicationName (options args);
                 app_OwnerName := ApplicationOwnerName (options args) |};
       SentCli := Some (versions h);
       Stack := 5;
       NumBuildSteps := numBuildSteps h;
       NumBuildAfterSteps := numBuildAfterSteps h;
       NumDeploySteps := numDeploySteps h;
       NumDeployAfterSteps := numDeployAfterSteps h;
       PipelineName := pipelineName;
       BoxName := boxName;
       BoxTag := boxTag;
       (* the fields [sendPayload] leaves as they are *)
       Grappler := Grappler p; p_Step := p_Step p; StepName := StepName p;
       StepOrder := StepOrder p; Success := Success p; Message := Message p;
       Duration := Duration p; VCS := VCS p |} in
  emit (AddEvent collection p).

Definition set_startStep (m : option (gmap string Time)) (h : MetricsEventHandler)
  : MetricsEventHandler :=
  {| keen := keen h; startStep := m; startBuild := startBuild h;
     versions := versions h; numBuildSteps := numBuildSteps h;
     numBuildAfterSteps := numBuildAfterSteps h;
     numDeploySteps := numDeploySteps h;
     numDeployAfterSteps := numDeployAfterSteps h |}.

Definition set_startBuild (t : Time) (h : MetricsEventHandler) : MetricsEventHandler :=
  {| keen := keen h; startStep := startStep h; startBuild := t;
     versions := versions h; numBuildSteps := numBuildSteps h;
     numBuildAfterSteps := numBuildAfterSteps h;
     numDeploySteps := numDeploySteps h;
     numDeployAfterSteps := numDeployAfterSteps h |}.

(** Each handler takes the instant [time.Now()] returns as [now]. *)

Definition BuildStarted (args : BuildStartedArgs) (now : Time) : Handler unit :=
  modify (set_startBuild now);;
  let p := zero_MetricsPayload in
  sendPayload {| p := p; options := bs_Options args; box := None; now := now;
                 eventName := "buildStarted" |}.

Definition with_Duration_Success (duration : option Z) (success : option bool)
    (p : MetricsPayload) : MetricsPayload :=
  {| Keen := Keen p; Timestamp := Timestamp p; Event := Event p; Stack := Stack p;
     SentCli := SentCli p; Grappler := Grappler p; PipelineName := PipelineName p;
     p_BuildID := p_BuildID p; p_DeployID := p_DeployID p;
     NumBuildSteps := NumBuildSteps p; NumBuildAfterSteps := NumBuildAfterSteps p;
     NumDeploySteps := NumDeploySteps p; NumDeployAfterSteps := NumDeployAfterSteps p;
     BoxName := BoxName p; BoxTag := BoxTag p; p_Step := p_Step p;
     StepName := StepName p; StepOrder := StepOrder p; Success := success;
     Message := Message p; Duration := duration; StartedBy := StartedBy p;
     VCS := VCS p; p_MetricsApplicationPayload := p_MetricsApplicationPayload p |}.

Definition with_Step (step : Step) (order : Z) (message : string)
    (p : MetricsPayload) : MetricsPayload :=
  {| Keen := Keen p; Timestamp := Timestamp p; Event := Event p; Stack := Stack p;
     SentCli := SentCli p; Grappler := Grappler p; PipelineName := PipelineName p;
     p_BuildID := p_BuildID p; p_DeployID := p_DeployID p;
     NumBuildSteps := NumBuildSteps p; NumBuildAfterSteps := NumBuildAfterSteps p;
     NumDeploySteps := NumDeploySteps p; NumDeployAfterSteps := NumDeployAfterSteps p;
     BoxName := BoxName p; BoxTag := BoxTag p;
     p_Step := Some (newMetricStepPayload step);
     StepName := formatUniqueStepName step; StepOrder := order;
     Success := Success p; Message := message; Duration := Duration p;
     StartedBy := StartedBy p; VCS := VCS p;
     p_MetricsApplicationPayload := p_MetricsApplicationPayload p |}.

Definition BuildFinished (args : BuildFinishedArgs) (now : Time) : Handler unit :=
  h ← get;
  let elapsed := Time_Sub now (startBuild h) in
  let duration := Duration_Seconds elapsed in
  let success := bool_decide (bf_Result args = "passed") in
  let p := with_Duration_Success (Some duration) (Some success) zero_MetricsPayload in
  sendPayload {| p := p; options := bf_Options args; box := bf_Box args; now := now;
                 eventName := "buildFinished" |}.

Definition BuildStepStarted (args : BuildStepStartedArgs) (now : Time) : Handler unit :=
  h ← get;
  match map_assign (startStep h) (SafeID (ss_Step args)) now with
  | Panic msg => panic msg
  | Val m =>
      modify (set_startStep m);;
      let p := with_Step (ss_Step args) (ss_Order args) "" zero_MetricsPayload in
      sendPayload {| p := p; options := ss_Options args; box := ss_Box args;
                     now := now; eventName := "buildStepStarted" |}
  end.

Definition BuildStepFinished (args : BuildStepFinishedArgs) (now : Time) : Handler unit :=
  h ← get;
  duration ←
    match map_index (startStep h) (SafeID (sf_Step args)) with
    | Some begin =>
        let elapsed := Time_Sub now begin in
        modify (set_startStep (map_delete (startStep h) (SafeID (sf_Step args))));;
        ret (Duration_Seconds elapsed)
    | None => ret 0%Z
    end;
  let p :=
    with_Duration_Success (Some duration) (Some (sf_Successful args))
      (with_Step (sf_Step args) (sf_Order args) (sf_Message args) zero_MetricsPayload) in
  sendPayload {| p := p; options := sf_Options args; box := sf_Box args; now := now;
                 eventName := "buildStepFinished" |}.

Definition BuildStepsAdded (args : BuildStepsAddedArgs) : Handler unit :=
  if decide (BuildID (sa_Options args) ≠ "") then
    modify (λ h,
      {| keen := keen h; startStep := startStep h; startBuild := startBuild h;
         versions := versions h;
         numBuildSteps := Z.of_nat (length (sa_Steps args));
         numBuildAfterSteps := Z.of_nat (length (sa_AfterSteps args));
         numDeploySteps := numDeploySteps h;
         numDeployAfterSteps := numDeployAfterSteps h |})
  else if decide (DeployID (sa_Options args) ≠ "") then
    modify (λ h,
      {| keen := keen h; startStep := startStep h; startBuild := startBuild h;
         versions := versions h;
         numBuildSteps := numBuildSteps h;
         numBuildAfterSteps := numBuildAfterSteps h;
         numDeploySteps := Z.of_nat (length (sa_Steps args));
         numDeployAfterSteps := Z.of_nat (length (sa_AfterSteps args)) |})
  else ret tt.

(** *** What the specification says of the handler, as predicates *)

(** The call completes and has added one event to keen, whose duration is
    [d]. *)
Definition sent_with_duration (r : Res unit * MetricsEventHandler * list Sent) (d : Z)
  : Prop :=
  outcome r = Val tt ∧
  ∃ collection payload, trace r = [AddEvent collection payload] ∧ Duration payload = Some d.

(** What the specification says of a [BuildStepFinished] event: without a
    recorded start the payload is sent with duration zero; with one, the
    duration is the time elapsed since, and the start is removed. *)
Definition BuildStepFinished_as_specified (h : MetricsEventHandler)
    (args : BuildStepFinishedArgs) (now : Time) : Prop :=
  let r := BuildStepFinished args now h in
  match map_index (startStep h) (SafeID (sf_Step args)) with
  | None => sent_with_duration r 0 ∧ startStep (final r) = startStep h
  | Some begin =>
      sent_with_duration r (Duration_Seconds (Time_Sub now begin)) ∧
      map_index (startStep (final r)) (SafeID (sf_Step args)) = None ∧
      startStep (final r) = map_delete (startStep h) (SafeID (sf_Step args))
  end.

(** What the specification says of a payload for options with neither a
    [BuildID] nor a [DeployID]: in debug mode the call panics; outside debug
    mode the violation is logged and the call is skipped, without a panic and
    without an event for keen. *)
Definition sendPayload_as_specified (h : MetricsEventHandler) (args : sendPayloadArgs)
  : Prop :=
  BuildID (options args) = "" →
  DeployID (options args) = "" →
  let r := sendPayload args h in
  if Debug (options args) then ∃ msg, outcome r = Panic msg
  else outcome r = Val tt ∧ (∃ msg, trace r = [LogPanic msg]) ∧ final r = h.

(** *** Observations on what the handler sends *)

Definition is_AddEvent (e : Sent) : bool :=
  match e with AddEvent _ _ => true | LogPanic _ => false end.

(** A call of a handler either completes and has added exactly one event to
    keen, or panics and has added none. *)
Definition one_event_or_none (r : Res unit * MetricsEventHandler * list Sent) : Prop :=
  match outcome r with
  | Val _ => ∃ collection payload, trace r = [AddEvent collection payload]
  | Panic _ => count is_AddEvent (trace r) = 0
  end.

(** The four counters of the handler. *)
Definition counters (h : MetricsEventHandler) : Z * Z * Z * Z :=
  (numBuildSteps h, numBuildAfterSteps h, numDeploySteps h, numDeployAfterSteps h).

Definition payload_counters (q : MetricsPayload) : Z * Z * Z * Z :=
  (NumBuildSteps q, NumBuildAfterSteps q, NumDeploySteps q, NumDeployAfterSteps q).

End handler.
End event.

Module event_examples.
Import event.

(** Instants as nanoseconds; durations cut to whole seconds. *)
Instance nanoseconds : Lib :=
  {| Time := Z;
     Time_zero := 0%Z;
     Time_Sub := λ t u, (t - u)%Z;
     Duration_Seconds := λ d, (d `quot` 1000000000)%Z;
     Time_Format_RFC3339 := λ _, "1970-01-01T00:00:00Z";
     Time_Unix := λ t, (t `div` 1000000000)%Z;
     Versions := unit;
     GetVersions := tt |}.

Definition build_options : PipelineOptions :=
  {| Debug := false; KeenProjectWriteKey := "write-key"; KeenProjectID := "project";
     BuildID := "build-1"; DeployID := ""; ApplicationID := "app";
     ApplicationName := "wercker"; ApplicationOwnerName := "owner";
     ApplicationStartedByName := "user" |}.

(** Options with neither a [BuildID] nor a [DeployID], outside debug mode. *)
Definition anonymous_options : PipelineOptions :=
  {| Debug := false; KeenProjectWriteKey := "write-key"; KeenProjectID := "project";
     BuildID := ""; DeployID := ""; ApplicationID := "app";
     ApplicationName := "wercker"; ApplicationOwnerName := "owner";
     ApplicationStartedByName := "user" |}.

Definition script : Step :=
  {| Owner := "wercker"; Name := "script"; Version := "1.0.0"; SafeID := "script-3" |}.

Definition handler0 : MetricsEventHandler :=
  {| keen := {| WriteKey := "write-key"; ProjectID := "project" |};
     startStep := Some ∅;
     startBuild := 0%Z;
     versions := tt;
     numBuildSteps := 0;
     numBuildAfterSteps := 0;
     numDeploySteps := 0;
     numDeployAfterSteps := 0 |}.

(** [script] was started at 2s. *)
Definition handler1 : MetricsEventHandler :=
  set_startStep (Some {[ "script-3" := 2000000000%Z ]}) handler0.

Definition finished (o : PipelineOptions) : BuildStepFinishedArgs :=
  {| sf_Options := o; sf_Box := None; sf_Step := script; sf_Order := 3;
     sf_Successful := true; sf_Message := "" |}.

Definition payload_args (o : PipelineOptions) : sendPayloadArgs :=
  {| p := zero_MetricsPayload; options := o; box := None; now := 0%Z;
     eventName := "buildStarted" |}.

Definition started (o : PipelineOptions) : BuildStepStartedArgs :=
  {| ss_Options := o; ss_Box := None; ss_Step := script; ss_Order := 3 |}.

Definition build_finished (o : PipelineOptions) (result : string) : BuildFinishedArgs :=
  {| bf_Options := o; bf_Box := None; bf_Result := result |}.

Definition steps_added (o : PipelineOptions) : BuildStepsAddedArgs :=
  {| sa_Options := o; sa_Steps := [script; script]; sa_AfterSteps := [script] |}.

(** Options with a [BuildID] and a [DeployID]. *)
Definition both_options : PipelineOptions :=
  {| Debug := false; KeenProjectWriteKey := "write-key"; KeenProjectID := "project";
     BuildID := "build-1"; DeployID := "deploy-1"; ApplicationID := "app";
     ApplicationName := "wercker"; ApplicationOwnerName := "owner";
     ApplicationStartedByName := "user" |}.

End event_examples.

(** ** Proofs: traces and the monad *)

Section traces.
Context {E : Type}.
Implicit Types (p q : E → bool) (t : list E).

(** [after], [count], [existsb] and [forallb] on a trace made of two. *)
Lemma count_app p t1 t2 : count p (t1 ++ t2) = count p t1 + count p t2.
Proof. induction t1 as [|e t1 IH]; simpl; [done|]. rewrite IH. lia. Qed.

Lemma after_app p t1 t2 :
  after p (t1 ++ t2) = if existsb p t1 then after p t1 ++ t2 else after p t2.
Proof. induction t1 as [|e t1 IH]; simpl; [done|]. by destruct (p e). Qed.

(** A trace whose events all are of the kind [q] has no event of a kind
    [p] that excludes [q]. *)
Lemma existsb_kind q p t :
  (∀ e, q e = true → p e = false) → forallb q t = true → existsb p t = false.
Proof.
  intros Hqp. induction t as [|e t IH]; simpl; [done|].
  intros [He Ht]%andb_prop. by rewrite (Hqp e He), IH.
Qed.

Lemma count_kind q p t :
  (∀ e, q e = true → p e = false) → forallb q t = true → count p t = 0.
Proof.
  intros Hqp. induction t as [|e t IH]; simpl; [done|].
  intros [He Ht]%andb_prop. by rewrite (Hqp e He), IH.
Qed.

Lemma forallb_kind q p t :
  (∀ e, q e = true → p e = true) → forallb q t = true → forallb p t = true.
Proof.
  intros Hqp. induction t as [|e t IH]; simpl; [done|].
  intros [He Ht]%andb_prop. by rewrite (Hqp e He), IH.
Qed.

Lemma after_none p t : existsb p t = false → after p t = [].
Proof.
  induction t as [|e t IH]; simpl; [done|].
  destruct (p e); simpl; [done|]. exact IH.
Qed.
End traces.

(** Running [bind] when its first part is known to complete. *)
Lemma bind_val {S E A B} (m : M S E A) (k : A → M S E B) s a s1 t1 :
  m s = (Val a, s1, t1) →
  bind m k s = match k a s1 with (r, s2, t2) => (r, s2, t1 ++ t2) end.
Proof. unfold bind. by intros ->. Qed.

(** ** Proofs: package main *)

Module pipeline_proofs.
Import main.

(** Unfolds the statements of the monad, down to functions on stores. *)
Ltac unfold_monad :=
  cbv beta iota zeta delta
    [bind ret emit get modify panic defer log_result log_Println log_Warnln
     log_Errorln log_Panicln Counter_Increment SoftExit_Exit SoftExit_options
     box_Commit].

(** Facts on one event, by cases on the event. *)
Ltac kind_solver :=
  let e := fresh "e" in
  intros e; destruct e; simpl; try done;
  repeat match goal with
         | x : Level |- _ => destruct x
         | x : Context_ |- _ => destruct x
         end; simpl; try done;
  try (intros ->%String.eqb_eq; done);
  try (intros ?%negb_true_iff; done).

(** The loop over the user steps completes and leaves the deferred calls as
    they are; after a failing step no step runs, and [pr.Success] is false
    exactly when a step has failed. *)
Lemma userSteps_spec w o steps s :
  ∃ s' t, userSteps w o steps s = (Val tt, s', t) ∧
    defers s' = defers s ∧ sr s' = sr s ∧
    forallb user_loop_action t = true ∧
    forallb (λ e, negb (is_user_RunStep e)) (after is_user_step_failed t) = true ∧
    (if existsb is_user_step_failed t then pr_Success (pr s') = false else pr s' = pr s).
Proof.
  revert s. induction steps as [|step rest IH]; intros s.
  { by exists s, []. }
  cbn. destruct (w_RunStep w ctx step (stepCounter s)) as [r [e|]]; cbn.
  - eexists _, _. split; [reflexivity|]. cbn. done.
  - destruct (ShouldCommit o); cbn.
    all: match goal with |- context [userSteps _ _ _ ?s1] =>
           destruct (IH s1) as (s' & t & -> & Hd & Hsr & Hk & Ha & Hpr) end.
    all: cbn; eexists _, _; (split; [reflexivity|]); cbn.
    all: rewrite Hd, Hsr, Hk, Ha; cbn; done.
Qed.

(** The loop over the after-steps completes and changes the step counter
    only; after a failing after-step no after-step runs. *)
Lemma afterSteps_spec w steps s :
  ∃ c t, afterSteps w steps s = (Val tt, set_stepCounter c s, t) ∧
    forallb after_loop_action t = true ∧
    forallb (λ e, negb (is_after_RunStep e)) (after is_after_step_failed t) = true.
Proof.
  revert s. induction steps as [|step rest IH]; intros s.
  { exists (stepCounter s), []. by destruct s. }
  cbn. destruct (w_RunStep w newCtx step (stepCounter s)) as [r [e|]]; cbn.
  - eexists _, _. split; [reflexivity|]. cbn. done.
  - match goal with |- context [afterSteps _ _ ?s1] =>
      destruct (IH s1) as (c & t & -> & Hk & Ha) end.
    cbn; eexists _, _; (split; [reflexivity|]); cbn.
    rewrite Hk, Ha; cbn; done.
Qed.

(** The store phase completes, and starts the store step exactly under the
    condition of its [if]. *)
Lemma storePhase_spec w o s :
  ∃ s' t, storePhase w o s = (Val tt, s', t) ∧
    defers s' = defers s ∧
    forallb store_action t = true ∧
    existsb is_StartStep t = ShouldPush o || (pr_Success (pr s) && ShouldArtifacts o).
Proof.
  unfold storePhase, storeFunc, func. destruct s as [d c [ps pn pm] r]. cbn.
  destruct (ShouldPush o), ps, (ShouldArtifacts o); cbn;
    try (destruct (w_Push w); cbn);
    try (destruct (w_CollectArtifact w) as [e|a]; cbn;
         try (destruct (w_Upload w a); cbn));
    by eexists _, _.
Qed.

Lemma after_loop_after_phase e : after_loop_action e = true → after_phase_action e = true.
Proof.
  revert e. kind_solver.
Qed.

(** The end of [executePipeline]: the [PipelineResult] is not written to;
    once the after-step loop is reached the value returned is the one the
    [PipelineResult] asks for. *)
Lemma finishAndAfterSteps_spec w s :
  ∃ r s' t, finishAndAfterSteps w s = (r, s', Finisher_Finish (pr_Success (pr s)) :: t) ∧
    defers s' = defers s ∧ pr s' = pr s ∧
    forallb after_phase_action t = true ∧
    (existsb is_result_exported t = true → r = Val (result_error (pr s))) ∧
    (existsb is_after_step_failed t = true →
       forallb (λ e, negb (is_after_RunStep e)) (after is_after_step_failed t) = true ∧
       r = Val (result_error (pr s))) ∧
    (w_AfterSteps w = [] → r = Val None ∧ t = []).
Proof.
  unfold finishAndAfterSteps. destruct s as [d c0 [ps pn pm] sr0]. cbn.
  destruct (decide (length (w_AfterSteps w) = 0)) as [|Hne]; cbn; [by eexists _, _, _|].
  assert (w_AfterSteps w ≠ []) as Hne' by (by intros Hn; rewrite Hn in Hne).
  destruct (w_Restart w); cbn; [by eexists _, _, _|].
  destruct (w_GetSession w); cbn; [by eexists _, _, _|].
  destruct (w_ExportEnvironment w); cbn; [by eexists _, _, _|].
  destruct (w_ResultExportEnvironment w _); cbn; [by eexists _, _, _|].
  match goal with |- context [bind (afterSteps _ _) _ ?s1] =>
    destruct (afterSteps_spec w (w_AfterSteps w) s1) as (c & t & Ht & Hk & Ha) end.
  rewrite (bind_val _ _ _ _ _ _ Ht).
  unfold_monad. cbn. unfold result_error.
  assert (Hk' := forallb_kind _ _ _ after_loop_after_phase Hk).
  destruct ps; cbn; eexists _, _, _; (split; [reflexivity|]); cbn.
  all: rewrite forallb_app, Hk'; cbn; repeat split; try done.
  all: rewrite after_app.
  all: destruct (existsb is_after_step_failed t); cbn; rewrite ?forallb_app, ?Ha; cbn; done.
Qed.

(** The deferred calls of [executePipeline] return: they add their calls to
    the trace and change neither the store nor the result. *)
Lemma run_defers_eq {A} ds (r : Res A) s :
  run_defers ds r s = (r, s, map (deferred_action s) ds).
Proof.
  revert r. induction ds as [|d ds IH]; intros r; simpl; [done|].
  destruct d; cbn; by rewrite IH.
Qed.

Lemma func_eq {A} (body : Run A) s r s1 t1 :
  body (set_defers [] s) = (r, s1, t1) →
  func body s = (r, set_defers (defers s) s1, t1 ++ map (deferred_action s1) (defers s1)).
Proof. unfold func. intros ->. by rewrite run_defers_eq. Qed.

(** What the kinds of events exclude. *)
Lemma user_loop_body e : user_loop_action e = true → body_action e = true.
Proof. revert e. kind_solver. Qed.
Lemma store_body e : store_action e = true → body_action e = true.
Proof. revert e. kind_solver. Qed.
Lemma after_phase_body e : after_phase_action e = true → body_action e = true.
Proof. revert e. kind_solver. Qed.

Lemma user_loop_no_box e : user_loop_action e = true → is_box_created e = false.
Proof. revert e. kind_solver. Qed.
Lemma store_no_box e : store_action e = true → is_box_created e = false.
Proof. revert e. kind_solver. Qed.
Lemma after_phase_no_box e : after_phase_action e = true → is_box_created e = false.
Proof. revert e. kind_solver. Qed.

Lemma store_no_step_failed e :
  store_action e = true → is_user_step_failed e = false.
Proof. revert e. kind_solver. Qed.
Lemma after_phase_no_step_failed e :
  after_phase_action e = true → is_user_step_failed e = false.
Proof. revert e. kind_solver. Qed.

Lemma store_no_user_RunStep e : store_action e = true → negb (is_user_RunStep e) = true.
Proof. revert e. kind_solver. Qed.
Lemma after_phase_no_user_RunStep e :
  after_phase_action e = true → negb (is_user_RunStep e) = true.
Proof. revert e. kind_solver. Qed.

Lemma user_loop_no_StartStep e : user_loop_action e = true → is_StartStep e = false.
Proof. revert e. kind_solver. Qed.
Lemma after_phase_no_StartStep e : after_phase_action e = true → is_StartStep e = false.
Proof. revert e. kind_solver. Qed.

Lemma user_loop_no_after_failed e :
  user_loop_action e = true → is_after_step_failed e = false.
Proof. revert e. kind_solver. Qed.
Lemma store_no_after_failed e : store_action e = true → is_after_step_failed e = false.
Proof. revert e. kind_solver. Qed.

Lemma user_loop_no_Finish e : user_loop_action e = true → is_passed_Finish e = false.
Proof. revert e. kind_solver. Qed.
Lemma store_no_Finish e : store_action e = true → is_passed_Finish e = false.
Proof. revert e. kind_solver. Qed.

Lemma user_loop_no_export e : user_loop_action e = true → is_result_exported e = false.
Proof. revert e. kind_solver. Qed.
Lemma store_no_export e : store_action e = true → is_result_exported e = false.
Proof. revert e. kind_solver. Qed.

#[local] Arguments storePhase : simpl never.
#[local] Arguments finishAndAfterSteps : simpl never.

(** The body of [executePipeline], along every path: the deferred calls it
    leaves registered, and what its trace says of the user steps, of the
    store phase and of the value returned. *)
Lemma pipelineBody_spec w o s :
  ∃ r s' t, pipelineBody w o s = (r, s', t) ∧
    defers s' =
      (if existsb is_box_created t
       then DBoxStop :: (if ShouldRemove o then [DBoxClean] else [])
       else []) ++ DFinish false :: defers s ∧
    forallb body_action t = true ∧
    (existsb is_user_step_failed t = true →
       forallb (λ e, negb (is_user_RunStep e)) (after is_user_step_failed t) = true ∧
       existsb is_StartStep t = ShouldPush o) ∧
    (existsb is_result_exported t = true → r = Val (result_error (pr s'))) ∧
    (existsb is_after_step_failed t = true →
       forallb (λ e, negb (is_after_RunStep e)) (after is_after_step_failed t) = true ∧
       r = Val (result_error (pr s'))) ∧
    (w_AfterSteps w = [] → existsb is_passed_Finish t = true →
       r = Val None ∧ pr_Success (pr s') = true).
Proof.
  unfold pipelineBody. destruct s as [d c0 p0 sr0].
  unfold_monad.
  destruct (Debug o), (ShouldRemove o) eqn:Hrm, (ShouldCommit o),
    (w_EnsureCode w) as [e|], (w_SetupEnvironment w) as [|[] e']; cbn.
  all: try by (eexists _, _, _; (split; [reflexivity|]); cbn; rewrite ?Hrm).
  all: match goal with |- context [userSteps ?w ?o ?l ?s0] =>
         destruct (userSteps_spec w o l s0) as (s1 & t1 & -> & Hd1 & _ & Hk1 & Ha1 & Hp1)
       end; cbn in Hd1; cbn.
  all: match goal with |- context [storePhase ?w ?o ?s0] =>
         destruct (storePhase_spec w o s0) as (s2 & t2 & -> & Hd2 & Hk2 & Hst2)
       end; cbn in Hd2, Hst2; cbn.
  all: destruct (pr_Success (pr s2)) eqn:Hs2; cbn.
  all: match goal with |- context [finishAndAfterSteps ?w ?s0] =>
         destruct (finishAndAfterSteps_spec w s0) as (r & s3 & t3 & -> & Hd3 & Hp3 & Hk3 & He3 & Ha3 & Hn3)
       end; cbn.
  all: eexists _, _, _; (split; [reflexivity|]).
  all: rewrite Hd3, Hd2, Hd1, Hp3.
  all: pose proof (forallb_kind _ _ _ user_loop_body Hk1) as Hb1.
  all: pose proof (forallb_kind _ _ _ store_body Hk2) as Hb2.
  all: pose proof (forallb_kind _ _ _ after_phase_body Hk3) as Hb3.
  all: pose proof (existsb_kind _ _ _ store_no_step_failed Hk2) as Hf2.
  all: pose proof (existsb_kind _ _ _ after_phase_no_step_failed Hk3) as Hf3.
  all: pose proof (forallb_kind _ _ _ store_no_user_RunStep Hk2) as Hu2.
  all: pose proof (forallb_kind _ _ _ after_phase_no_user_RunStep Hk3) as Hu3.
  all: pose proof (existsb_kind _ _ _ user_loop_no_StartStep Hk1) as Hss1.
  all: pose proof (existsb_kind _ _ _ after_phase_no_StartStep Hk3) as Hss3.
  all: pose proof (existsb_kind _ _ _ user_loop_no_export Hk1) as Hx1.
  all: pose proof (existsb_kind _ _ _ store_no_export Hk2) as Hx2.
  all: pose proof (existsb_kind _ _ _ user_loop_no_Finish Hk1) as Hy1.
  all: pose proof (existsb_kind _ _ _ store_no_Finish Hk2) as Hy2.
  all: pose proof (existsb_kind _ _ _ user_loop_no_after_failed Hk1) as Hz1.
  all: pose proof (existsb_kind _ _ _ store_no_after_failed Hk2) as Hz2.
  all: cbn; rewrite ?after_app, ?existsb_app, ?forallb_app; cbn;
       rewrite ?after_app, ?existsb_app, ?forallb_app; cbn.
  all: rewrite Hb1, Hb2, Hb3, Hf2, Hf3, Hss1, Hss3, Hx1, Hx2, Hy1, Hy2, Hz1, Hz2, Hst2; cbn.
  all: destruct (existsb is_user_step_failed t1); cbn;
       rewrite ?forallb_app, ?Ha1, ?Hp1; cbn;
       rewrite ?forallb_app, ?Hu2; cbn; rewrite ?Hu3, ?orb_false_r.
  all: repeat split; try done.
  all: try match goal with
           | Hf : existsb is_after_step_failed _ = true |- _ =>
               by destruct (Ha3 Hf)
           end.
  all: match goal with
       | Hn : w_AfterSteps _ = [] |- _ =>
           destruct (Hn3 Hn) as [-> ->]; rewrite ?Hs2 in *; cbn in *; done
       end.
Qed.

(** A run is its body followed by the deferred calls, last registered
    first. *)
Lemma run_eq w o :
  w_NewGlobalOptions w = inr o →
  ∃ r s' t, pipelineBody w o zero_Locals = (r, s', t) ∧
    run w = (r, set_defers [] s', t ++ map (deferred_action s') (defers s')).
Proof.
  intros Ho. unfold run, executePipeline. rewrite Ho.
  destruct (pipelineBody w o zero_Locals) as [[r s'] t] eqn:Hb.
  exists r, s', t. split; [done|]. by apply func_eq.
Qed.

(** Traces of deferred calls. *)
Lemma existsb_deferred (p : Action → bool) s ds :
  (∀ d, p (deferred_action s d) = false) →
  existsb p (map (deferred_action s) ds) = false.
Proof. intros Hp. induction ds as [|d ds IH]; cbn; [done|]. by rewrite Hp, IH. Qed.

Lemma forallb_deferred (p : Action → bool) s ds :
  (∀ d, p (deferred_action s d) = true) →
  forallb p (map (deferred_action s) ds) = true.
Proof. intros Hp. induction ds as [|d ds IH]; cbn; [done|]. by rewrite Hp, IH. Qed.

(** *** The scenarios of the specification *)

(** Steps [A, B] pass, nothing is stored: the steps run with orders 3 and 4,
    the build is reported as passed and the run returns nil. *)
Example scenario_steps_pass :
  let r := run main_examples.world0 in
  filter (λ e, is_user_RunStep e = true) (trace r) =
    [RunStep ctx main_examples.stepA 3 None; RunStep ctx main_examples.stepB 4 None] ∧
  existsb is_StartStep (trace r) = false ∧
  existsb is_passed_Finish (trace r) = true ∧
  outcome r = Val None.
Proof. vm_compute. tauto. Qed.

(** Step [A] fails with message "oops": [B] does not run and the
    [PipelineResult] names [A].  There are no after-steps, and the run returns
    nil all the same: the [return nil] for an empty after-step list comes
    before the test of [pr.Success]. *)
Example failed_build_without_after_steps_returns_nil :
  let r := run main_examples.world_step_fails in
  filter (λ e, is_user_RunStep e = true) (trace r) =
    [RunStep ctx main_examples.stepA 3 (Some "exit status 1")] ∧
  pr (final r) = {| pr_Success := false; pr_FailedStepName := "A-display";
                    pr_FailedStepMessage := "oops" |} ∧
  existsb is_passed_Finish (trace r) = false ∧
  outcome r = Val None.
Proof. vm_compute. tauto. Qed.

(** *** SoftExit *)

(** C6.  [SoftExit.Exit] in debug mode logs its arguments at panic level and
    panics with them; outside debug mode it logs them at error level and
    returns the error "Exiting.", which is not nil and does not depend on
    the arguments. *)
Theorem SoftExit_Exit_spec (soft : SoftExit) (v : list string) (s : Locals) :
  SoftExit_Exit soft v s =
    (if Debug (SoftExit_options soft)
     then (Panic (sprintln v), s, [Log PanicLevel (sprintln v)])
     else (Val (fmt_Errorf "Exiting."), s, [Log ErrorLevel (sprintln v)])) ∧
  fmt_Errorf "Exiting." ≠ None.
Proof.
  split; [|done]. unfold SoftExit_Exit. unfold_monad. by destruct (Debug _).
Qed.

(** *** The store phase *)

(** C1, at the input where it fails.  With [--push], step [A] failing and the
    push succeeding, [PipelineResult.Success] is false when the store phase
    is entered and true when it is left; the build is reported as passed and
    [executePipeline] returns nil. *)
Theorem store_phase_upgrades_failed_build :
  let o := {| Debug := false; ShouldRemove := true; ShouldCommit := false;
              ShouldPush := true; ShouldArtifacts := false;
              Registry := "registry"; AuthToken := "" |} in
  let w := main_examples.world_push_after_failure in
  let before := final (userSteps w o (w_Steps w) zero_Locals) in
  let r := run w in
  w_NewGlobalOptions w = inr o ∧
  pr_Success (pr before) = false ∧
  pr_Success (pr (final (storePhase w o before))) = true ∧
  existsb is_user_step_failed (trace r) = true ∧
  In (Finisher_Finish true) (trace r) ∧
  pr (final r) = {| pr_Success := true; pr_FailedStepName := "";
                    pr_FailedStepMessage := "" |} ∧
  outcome r = Val None.
Proof. vm_compute. tauto. Qed.

(** The same for every store and every world: entered after a failure with
    [ShouldPush] set, the store phase leaves a passed [PipelineResult] when
    the push succeeds. *)
Lemma storePhase_after_failure w o s :
  ShouldPush o = true → w_Push w = None → pr_Success (pr s) = false →
  pr (final (storePhase w o s)) =
    {| pr_Success := true; pr_FailedStepName := ""; pr_FailedStepMessage := "" |}.
Proof.
  intros Hp Hw Hs. destruct s as [d c [ps pn pm] r]. cbn in Hs. subst ps.
  unfold storePhase, storeFunc, func. unfold_monad. rewrite Hp, Hw. reflexivity.
Qed.

(** *** Ensure code *)

(** C3, at the input where it fails.  Outside debug mode, when [EnsureCode]
    returns an error, [SoftExit.Exit] logs it and [executePipeline] goes on:
    [SetupEnvironment] is called, the steps are announced and step [A]
    runs. *)
Theorem EnsureCode_failure_goes_on :
  let r := run main_examples.world_no_code in
  existsb is_EnsureCode_failed (trace r) = true ∧
  head (after is_EnsureCode_failed (trace r)) = Some (Log ErrorLevel "unable to fetch code") ∧
  existsb is_SetupEnvironment (after is_EnsureCode_failed (trace r)) = true ∧
  count is_user_RunStep (after is_EnsureCode_failed (trace r)) = 1 ∧
  outcome r = Val None.
Proof. vm_compute. tauto. Qed.

(** In debug mode the same failure stops the run: [SoftExit.Exit] panics and
    [SetupEnvironment] is not called. *)
Example EnsureCode_failure_in_debug_mode :
  let r := run main_examples.world_no_code_debug in
  outcome r = Panic "unable to fetch code" ∧
  existsb is_SetupEnvironment (trace r) = false ∧
  count is_user_RunStep (trace r) = 0.
Proof. vm_compute. tauto. Qed.

(** *** User steps *)

(** C4.  In a run in which [RunStep] returns an error for a user step, no
    user step runs after that one, and the store step is started exactly
    when [ShouldPush] is set. *)
Theorem user_step_failure w o :
  w_NewGlobalOptions w = inr o →
  existsb is_user_step_failed (trace (run w)) = true →
  forallb (λ e, negb (is_user_RunStep e))
    (after is_user_step_failed (trace (run w))) = true ∧
  existsb is_StartStep (trace (run w)) = ShouldPush o.
Proof.
  intros Ho. destruct (run_eq w o Ho) as (r & s' & t & Hb & ->).
  destruct (pipelineBody_spec w o zero_Locals)
    as (r' & s'' & t' & Hb' & Hd & _ & Hfail & _ & _ & _).
  rewrite Hb in Hb'. injection Hb' as <- <- <-.
  unfold trace; cbn [snd]. rewrite Hd. cbn [defers zero_Locals].
  rewrite after_app, !existsb_app.
  rewrite !existsb_deferred by (by intros []). rewrite !orb_false_r.
  intros Hf. rewrite Hf. destruct (Hfail Hf) as [Hu Hs]. split; [|done].
  rewrite forallb_app, Hu. cbn. apply forallb_deferred. by intros [].
Qed.

Lemma user_step_failure_witness :
  forallb (λ e, negb (is_user_RunStep e))
    (after is_user_step_failed (trace (run main_examples.world_step_fails))) = true ∧
  existsb is_StartStep (trace (run main_examples.world_step_fails)) = false.
Proof.
  apply (user_step_failure main_examples.world_step_fails main_examples.options0);
    reflexivity.
Defined.

(** *** Scoped cleanup of the box *)

(** C5.  In a run in which [SetupEnvironment] has returned a context with a
    box and [ShouldRemove] is set, [Box.Clean] is called exactly once,
    [Box.Stop] is called exactly once, and the call of [Box.Clean] comes
    after the call of [Box.Stop]; this holds whether the run returns or
    panics. *)
Theorem Box_Clean_once_after_Stop w o :
  w_NewGlobalOptions w = inr o →
  ShouldRemove o = true →
  existsb is_box_created (trace (run w)) = true →
  count is_Box_Clean (trace (run w)) = 1 ∧
  count is_Box_Stop (trace (run w)) = 1 ∧
  existsb is_Box_Clean (after is_Box_Stop (trace (run w))) = true.
Proof.
  intros Ho Hrm. destruct (run_eq w o Ho) as (r & s' & t & Hb & ->).
  destruct (pipelineBody_spec w o zero_Locals)
    as (r' & s'' & t' & Hb' & Hd & Hk & _ & _ & _ & _).
  rewrite Hb in Hb'. injection Hb' as <- <- <-.
  unfold trace; cbn [snd]. rewrite Hd, Hrm. cbn [defers zero_Locals].
  assert (count is_Box_Clean t = 0) as Hc.
  { eapply count_kind; [|exact Hk]. by intros [] [_ ?%negb_true_iff]%andb_prop. }
  assert (count is_Box_Stop t = 0) as Hs.
  { eapply count_kind; [|exact Hk]. by intros [] [?%negb_true_iff _]%andb_prop. }
  assert (existsb is_Box_Stop t = false) as Hs'.
  { eapply existsb_kind; [|exact Hk]. by intros [] [?%negb_true_iff _]%andb_prop. }
  rewrite existsb_app, !count_app, after_app, Hc, Hs, Hs'.
  destruct (existsb is_box_created t); cbn; done.
Qed.

Lemma Box_Clean_once_after_Stop_witness :
  count is_Box_Clean (trace (run main_examples.world_setup_panics)) = 1 ∧
  count is_Box_Stop (trace (run main_examples.world_setup_panics)) = 1 ∧
  existsb is_Box_Clean
    (after is_Box_Stop (trace (run main_examples.world_setup_panics))) = true.
Proof.
  apply (Box_Clean_once_after_Stop main_examples.world_setup_panics
           {| Debug := true; ShouldRemove := true; ShouldCommit := false;
              ShouldPush := false; ShouldArtifacts := false;
              Registry := "registry"; AuthToken := "" |});
    reflexivity.
Defined.

(** *** The return value *)

Lemma omap_kind {B} (q : Action → bool) (f : Action → option B) t :
  (∀ e, q e = true → f e = None) → forallb q t = true → omap f t = [].
Proof.
  intros Hq. induction t as [|e t IH]; cbn; [done|].
  intros [He Ht]%andb_prop. by rewrite (Hq e He), IH.
Qed.

Lemma omap_deferred {B} (f : Action → option B) s ds :
  (∀ d, f (deferred_action s d) = None) → omap f (map (deferred_action s) ds) = [].
Proof. intros Hf. induction ds as [|d ds IH]; cbn; [done|]. by rewrite Hf, IH. Qed.

(** From [buildFinisher.Finish(pr.Success)] on, an export to the new session
    that fails ends the function: its error is returned. *)
Lemma finishAndAfterSteps_export w s r s' t :
  finishAndAfterSteps w s = (r, s', t) →
  ∀ err, err ∈ omap export_error_of t → r = Val (Some err).
Proof.
  unfold finishAndAfterSteps. destruct s as [d c0 [ps pn pm] sr0]. cbn.
  destruct (decide (length (w_AfterSteps w) = 0)); cbn.
  { intros [= <- <- <-] err. cbn. by intros ?%elem_of_nil. }
  destruct (w_Restart w); cbn.
  { intros [= <- <- <-] err. cbn. by intros ?%elem_of_nil. }
  destruct (w_GetSession w); cbn.
  { intros [= <- <- <-] err. cbn. by intros ?%elem_of_nil. }
  destruct (w_ExportEnvironment w) as [e|]; cbn.
  { intros [= <- <- <-] err. cbn. by intros ->%list_elem_of_singleton. }
  destruct (w_ResultExportEnvironment w _) as [e|]; cbn.
  { intros [= <- <- <-] err. cbn. by intros ->%list_elem_of_singleton. }
  match goal with |- context [bind (afterSteps _ _) _ ?s1] =>
    destruct (afterSteps_spec w (w_AfterSteps w) s1) as (c & t1 & Ht & Hk & _) end.
  rewrite (bind_val _ _ _ _ _ _ Ht).
  unfold_monad. cbn.
  assert (omap export_error_of t1 = []) as Hx.
  { eapply omap_kind; [|exact Hk]. kind_solver. }
  destruct ps; cbn; intros [= <- <- <-] err; cbn; rewrite omap_app, Hx; cbn.
  all: by intros ?%elem_of_nil.
Qed.

(** Nothing before [buildFinisher.Finish(pr.Success)] exports to the new
    session. *)
Lemma pipelineBody_export w o s r s' t :
  pipelineBody w o s = (r, s', t) →
  ∀ err, err ∈ omap export_error_of t → r = Val (Some err).
Proof.
  unfold pipelineBody. destruct s as [d c0 p0 sr0].
  unfold_monad.
  destruct (Debug o), (ShouldRemove o), (ShouldCommit o),
    (w_EnsureCode w) as [e|], (w_SetupEnvironment w) as [|[] e']; cbn.
  all: try (intros [= <- <- <-] err; cbn; by intros ?%elem_of_nil).
  all: match goal with |- context [userSteps ?w ?o ?l ?s0] =>
         destruct (userSteps_spec w o l s0) as (s1 & t1 & -> & _ & _ & Hk1 & _)
       end; cbn.
  all: match goal with |- context [storePhase ?w ?o ?s0] =>
         destruct (storePhase_spec w o s0) as (s2 & t2 & -> & _ & Hk2 & _)
       end; cbn.
  all: destruct (pr_Success (pr s2)); cbn.
  all: match goal with |- context [finishAndAfterSteps ?w ?s0] =>
         destruct (finishAndAfterSteps w s0) as [[r3 s3] t3] eqn:E3
       end; cbn.
  all: intros [= <- <- <-] err; cbn.
  all: rewrite ?omap_app; cbn; rewrite ?omap_app.
  all: rewrite (omap_kind user_loop_action export_error_of t1) by (kind_solver || done).
  all: rewrite (omap_kind store_action export_error_of t2) by (kind_solver || done).
  all: cbn; by apply (finishAndAfterSteps_export _ _ _ _ _ E3).
Qed.

(** C2 fails as stated: the steps pass, [PipelineResult.Success] is true to
    the end, and the run returns the error of
    [pipeline.ExportEnvironment]. *)
Lemma returns_the_result_counterexample :
  ¬ returns_the_result (run main_examples.world_export_fails).
Proof. intros [H _]. specialize (H eq_refl). vm_compute in H. discriminate. Qed.

(** C2, amended.  A run that has exported the [PipelineResult] to the new
    session, so that the after-step loop is reached, or that has no
    after-steps and has reported the build as passed, returns nil when the
    final [PipelineResult.Success] is true and the error
    "Step failed: <FailedStepName>" when it is false.  A run in which
    [pipeline.ExportEnvironment] or [pr.ExportEnvironment] on the new session
    has failed returns the error of that export, whatever the result. *)
Theorem returns_the_result_after_steps w :
  (existsb is_result_exported (trace (run w)) = true ∨
   (w_AfterSteps w = [] ∧ existsb is_passed_Finish (trace (run w)) = true) →
   returns_the_result (run w)) ∧
  (∀ err, err ∈ omap export_error_of (trace (run w)) → outcome (run w) = Val (Some err)).
Proof.
  destruct (w_NewGlobalOptions w) as [e|o] eqn:Ho.
  { unfold run, executePipeline. rewrite Ho. split.
    - vm_compute. intros [|[_ ?]]; discriminate.
    - intros err. cbn. by intros ?%elem_of_nil. }
  destruct (run_eq w o Ho) as (r & s' & t & Hb & ->).
  destruct (pipelineBody_spec w o zero_Locals)
    as (r' & s'' & t' & Hb' & Hd & _ & _ & Hret & _ & Hpass).
  rewrite Hb in Hb'. injection Hb' as <- <- <-.
  unfold returns_the_result, trace, final, outcome; cbn [fst snd].
  split.
  - rewrite !existsb_app, existsb_deferred, orb_false_r by (by intros []).
    intros [Hx|[Hn Hx]].
    + rewrite (Hret Hx).
      unfold result_error. destruct s' as [d c [[] n m] sr']; cbn; split; done.
    + assert (existsb is_passed_Finish t = true) as Hx'.
      { rewrite Hd in Hx.
        destruct (existsb is_box_created t), (ShouldRemove o); cbn in Hx;
          by rewrite orb_false_r in Hx. }
      destruct (Hpass Hn Hx') as [-> Hs]. destruct s'; cbn in *. rewrite Hs. split; done.
  - intros err. rewrite omap_app, omap_deferred, app_nil_r by (by intros []).
    by apply (pipelineBody_export _ _ _ _ _ _ Hb).
Qed.

Lemma returns_the_result_after_steps_witness :
  returns_the_result (run main_examples.world_step_fails_after) ∧
  outcome (run main_examples.world_export_fails) = Val (Some "session closed").
Proof.
  split.
  - apply (proj1 (returns_the_result_after_steps main_examples.world_step_fails_after)).
    left. reflexivity.
  - apply (proj2 (returns_the_result_after_steps main_examples.world_export_fails)).
    vm_compute. left.
Defined.

(** *** After-steps *)

(** C9.  [finishAndAfterSteps] is [executePipeline] from
    [buildFinisher.Finish(pr.Success)] to its last [return]; [s] is the store
    it is entered with.  When [RunStep] returns an error for an after-step,
    no after-step runs after that one, the [PipelineResult] at the end is the
    one of [s], and the value returned is the one the [PipelineResult] of
    [s] asks for. *)
Theorem after_step_failure w s :
  let r := finishAndAfterSteps w s in
  existsb is_after_step_failed (trace r) = true →
  forallb (λ e, negb (is_after_RunStep e)) (after is_after_step_failed (trace r)) = true ∧
  head (trace r) = Some (Finisher_Finish (pr_Success (pr s))) ∧
  pr (final r) = pr s ∧
  outcome r = Val (result_error (pr s)).
Proof.
  destruct (finishAndAfterSteps_spec w s) as (r & s' & t & -> & _ & Hpr & _ & _ & Hfail & _).
  unfold trace, final, outcome; cbn. intros Hf. destruct (Hfail Hf) as [Hno ->]. done.
Qed.

Lemma after_step_failure_witness :
  let r := finishAndAfterSteps main_examples.world_after_step_fails zero_Locals in
  forallb (λ e, negb (is_after_RunStep e)) (after is_after_step_failed (trace r)) = true ∧
  head (trace r) = Some (Finisher_Finish false) ∧
  pr (final r) = pr zero_Locals ∧
  outcome r = Val (Some "Step failed: ").
Proof.
  apply (after_step_failure main_examples.world_after_step_fails zero_Locals).
  reflexivity.
Defined.

(** The same for a whole run of [executePipeline]: after the failing
    after-step no after-step runs, the run returns what its final
    [PipelineResult] asks for, and that [PipelineResult] is the one exported
    to the new session before the first after-step ran. *)
Corollary failing_after_step_in_run w :
  existsb is_after_step_failed (trace (run w)) = true →
  forallb (λ e, negb (is_after_RunStep e))
    (after is_after_step_failed (trace (run w))) = true ∧
  outcome (run w) = Val (result_error (pr (final (run w)))).
Proof.
  destruct (w_NewGlobalOptions w) as [e|o] eqn:Ho.
  { unfold run, executePipeline. rewrite Ho. vm_compute. discriminate. }
  destruct (run_eq w o Ho) as (r & s' & t & Hb & ->).
  destruct (pipelineBody_spec w o zero_Locals)
    as (r' & s'' & t' & Hb' & Hd & _ & _ & _ & Hfail & _).
  rewrite Hb in Hb'. injection Hb' as <- <- <-.
  unfold trace, final, outcome; cbn [fst snd].
  rewrite existsb_app, after_app, existsb_deferred, orb_false_r by (by intros []).
  intros Hf. rewrite Hf. destruct (Hfail Hf) as [Hno ->]. split; [|done].
  rewrite forallb_app, Hno. cbn. apply forallb_deferred. by intros [].
Qed.

(** *** More on the parts of [executePipeline] *)

Lemma count_deferred (p : Action → bool) s ds :
  (∀ d, p (deferred_action s d) = false) → count p (map (deferred_action s) ds) = 0.
Proof. intros Hp. induction ds as [|d ds IH]; cbn; [done|]. by rewrite Hp, IH. Qed.

(** The loop over the user steps: it commits after each step that passes when
    [ShouldCommit] is set and never otherwise, and it runs the steps in their
    order, up to the first that fails. *)
Lemma userSteps_more w o steps s s' t :
  userSteps w o steps s = (Val tt, s', t) →
  count is_Box_Commit t = (if ShouldCommit o then count is_user_step_passed t else 0) ∧
  steps_run ctx t `prefix_of` steps ∧
  (existsb is_user_step_failed t = false → steps_run ctx t = steps).
Proof.
  revert s s' t. induction steps as [|step rest IH]; intros s s' t.
  { cbn. intros [= <- <-]. cbn. by destruct (ShouldCommit o). }
  cbn. destruct (w_RunStep w ctx step (stepCounter s)) as [r [e|]]; cbn.
  - intros [= <- <-]. cbn. destruct (ShouldCommit o); repeat split; try done.
    all: apply prefix_cons, prefix_nil.
  - destruct (ShouldCommit o) eqn:Hc; cbn.
    all: match goal with |- context [userSteps _ _ _ ?s1] =>
           destruct (userSteps w o rest s1) as [[[[]|m] s2] t2] eqn:Hrest end.
    all: cbn; intros [= <- <-].
    all: destruct (IH _ _ _ Hrest) as (Hcount & Hpre & Hall).
    all: unfold steps_run in *; cbn; rewrite ?Hc in Hcount; rewrite Hcount.
    all: repeat split; try done; try by apply prefix_cons.
    all: intros Hf; f_equal; by apply Hall.
Qed.

(** The loop over the after-steps runs them in their order, up to the first
    that fails. *)
Lemma afterSteps_more w steps s s' t :
  afterSteps w steps s = (Val tt, s', t) →
  steps_run newCtx t `prefix_of` steps.
Proof.
  revert s s' t. induction steps as [|step rest IH]; intros s s' t.
  { cbn. intros [= <- <-]. done. }
  cbn. destruct (w_RunStep w newCtx step (stepCounter s)) as [r [e|]]; cbn.
  - intros [= <- <-]. cbn. apply prefix_cons, prefix_nil.
  - match goal with |- context [afterSteps _ _ ?s1] =>
      destruct (afterSteps w rest s1) as [[[[]|m] s2] t2] eqn:Hrest end.
    all: cbn; intros [= <- <-].
    cbn. apply prefix_cons. by eapply IH.
Qed.

(** The store phase, by cases: the store step is finished once with a result
    that agrees with the [PipelineResult] the phase leaves. *)
Lemma storePhase_more w o s :
  let r := storePhase w o s in
  (existsb is_CollectArtifact (trace r) = true → pr_Success (pr s) = true) ∧
  (ShouldPush o || (pr_Success (pr s) && ShouldArtifacts o) = true →
   ∃ res, step_finishes (trace r) = [res] ∧
     sr_Success res = pr_Success (pr (final r)) ∧
     sr_ExitCode res = (if pr_Success (pr (final r)) then 0 else 1)%Z ∧
     sr_PackageURL res = from_option URL "" (head (uploaded (trace r))) ∧
     pr_FailedStepName (pr (final r)) =
       (if pr_Success (pr (final r)) then "" else "store") ∧
     pr_FailedStepMessage (pr (final r)) =
       (if pr_Success (pr (final r)) then ""
        else if existsb is_CollectArtifact (trace r)
             then "Unable to store pipeline output"
             else "Unable to push to registry")).
Proof.
  unfold storePhase, storeFunc, func. destruct s as [d c [ps pn pm] r]. cbn.
  destruct (ShouldPush o), ps, (ShouldArtifacts o); cbn;
    try (destruct (w_Push w); cbn);
    try (destruct (w_CollectArtifact w) as [e|a]; cbn;
         try (destruct (w_Upload w a) eqn:Hup; cbn; rewrite ?Hup; cbn)).
  all: split; [done|]; try done.
  all: intros _; eexists; repeat split; reflexivity.
Qed.

Lemma after_loop_after_finish e :
  after_loop_action e = true → after_finish_action e = true.
Proof. revert e. kind_solver. Qed.

(** The end of [executePipeline]: nothing but the first call is a call of
    [buildFinisher.Finish], the [PipelineResult] that is exported is the one
    the part is entered with, and the after-steps run in their order. *)
Lemma finishAndAfterSteps_more w s r s' t0 :
  finishAndAfterSteps w s = (r, s', t0) →
  ∃ t, t0 = Finisher_Finish (pr_Success (pr s)) :: t ∧
    forallb after_finish_action t = true ∧
    (exported t = [] ∨ exported t = [pr s]) ∧
    steps_run newCtx t `prefix_of` w_AfterSteps w.
Proof.
  unfold finishAndAfterSteps. destruct s as [d c0 [ps pn pm] sr0]. cbn.
  destruct (decide (length (w_AfterSteps w) = 0)); cbn.
  { intros [= <- <- <-]. eexists. split; [done|]. cbn. eauto using prefix_nil. }
  destruct (w_Restart w); cbn.
  { intros [= <- <- <-]. eexists. split; [done|]. cbn. eauto using prefix_nil. }
  destruct (w_GetSession w); cbn.
  { intros [= <- <- <-]. eexists. split; [done|]. cbn. eauto using prefix_nil. }
  destruct (w_ExportEnvironment w); cbn.
  { intros [= <- <- <-]. eexists. split; [done|]. cbn. eauto using prefix_nil. }
  destruct (w_ResultExportEnvironment w _); cbn.
  { intros [= <- <- <-]. eexists. split; [done|]. cbn. eauto using prefix_nil. }
  match goal with |- context [bind (afterSteps _ _) _ ?s1] =>
    destruct (afterSteps_spec w (w_AfterSteps w) s1) as (c & t & Ht & Hk & _);
    pose proof (afterSteps_more _ _ _ _ _ Ht) as Hpre end.
  rewrite (bind_val _ _ _ _ _ _ Ht).
  unfold_monad. cbn.
  assert (Hk' := forallb_kind _ _ _ after_loop_after_finish Hk).
  assert (exported t = []) as Hx.
  { eapply omap_kind; [|exact Hk]. kind_solver. }
  destruct ps; cbn; intros [= <- <- <-]; eexists; (split; [reflexivity|]).
  all: unfold exported, steps_run in *; cbn; rewrite forallb_app, !omap_app, Hk', Hx; cbn.
  all: rewrite app_nil_r; eauto.
Qed.

(** What the traces of the three parts do not hold. *)
Lemma user_loop_trace t :
  forallb user_loop_action t = true →
  existsb is_setup_failed t = false ∧ existsb is_CollectArtifact t = false ∧
  omap (step_of newCtx) t = [] ∧ omap finish_of t = [] ∧ omap export_of t = [].
Proof.
  intros Hk. repeat split.
  1,2: eapply existsb_kind; [|exact Hk]; kind_solver.
  all: eapply omap_kind; [|exact Hk]; kind_solver.
Qed.

Lemma store_trace t :
  forallb store_action t = true →
  existsb is_setup_failed t = false ∧
  count is_Box_Commit t = 0 ∧ count is_user_step_passed t = 0 ∧
  omap (step_of ctx) t = [] ∧ omap (step_of newCtx) t = [] ∧
  omap finish_of t = [] ∧ omap export_of t = [].
Proof.
  intros Hk. repeat split.
  1: eapply existsb_kind; [|exact Hk]; kind_solver.
  1,2: eapply count_kind; [|exact Hk]; kind_solver.
  all: eapply omap_kind; [|exact Hk]; kind_solver.
Qed.

Lemma after_finish_trace t :
  forallb after_finish_action t = true →
  existsb is_setup_failed t = false ∧ existsb is_CollectArtifact t = false ∧
  existsb is_user_step_failed t = false ∧
  count is_Box_Commit t = 0 ∧ count is_user_step_passed t = 0 ∧
  omap (step_of ctx) t = [] ∧ omap finish_of t = [].
Proof.
  intros Hk. repeat split.
  1,2,3: eapply existsb_kind; [|exact Hk]; kind_solver.
  1,2: eapply count_kind; [|exact Hk]; kind_solver.
  all: eapply omap_kind; [|exact Hk]; kind_solver.
Qed.

(** The body of [executePipeline] once more, for what the properties below
    need. *)
Lemma pipelineBody_more w o s :
  ∃ r s' t, pipelineBody w o s = (r, s', t) ∧
    count is_Box_Commit t =
      (if ShouldCommit o
       then count is_user_step_passed t + (if existsb is_BuildStepsAdded t then 1 else 0)
       else 0) ∧
    (existsb is_setup_failed t = true →
       forallb before_steps_action t = true ∧
       ∃ b e, w_SetupEnvironment w = SetupFailed b e ∧
              r = if Debug o then Panic e else Val (fmt_Errorf "Exiting.")) ∧
    steps_run ctx t `prefix_of` w_Steps w ∧
    steps_run newCtx t `prefix_of` w_AfterSteps w ∧
    (existsb is_BuildStepsAdded t = true → existsb is_user_step_failed t = false →
       steps_run ctx t = w_Steps w) ∧
    (existsb is_user_step_failed t = true → existsb is_CollectArtifact t = false) ∧
    finishes t = (if existsb is_BuildStepsAdded t then [pr_Success (pr s')] else []) ∧
    (exported t = [] ∨ exported t = [pr s']).
Proof.
  unfold pipelineBody. destruct s as [d c0 p0 sr0].
  unfold_monad.
  destruct (Debug o), (ShouldRemove o), (ShouldCommit o) eqn:Hsc,
    (w_EnsureCode w) as [e|], (w_SetupEnvironment w) as [|[] e']; cbn.
  all: try (eexists _, _, _; (split; [reflexivity|]); cbn;
            repeat split; try done; eauto using prefix_nil; fail).
  all: match goal with |- context [userSteps ?w ?o ?l ?s0] =>
         destruct (userSteps_spec w o l s0) as (s1 & t1 & E1 & _ & _ & Hk1 & _ & Hp1);
         destruct (userSteps_more _ _ _ _ _ _ E1) as (Hc1 & Hpre1 & Hall1);
         rewrite E1
       end; cbn.
  all: match goal with |- context [storePhase ?w ?o ?s0] =>
         destruct (storePhase_spec w o s0) as (s2 & t2 & E2 & _ & Hk2 & _);
         destruct (storePhase_more w o s0) as [Hart2 _];
         rewrite E2 in Hart2; unfold trace in Hart2; cbn in Hart2;
         rewrite E2
       end; cbn.
  all: destruct (pr_Success (pr s2)) eqn:Hs2; cbn.
  all: match goal with |- context [finishAndAfterSteps ?w ?s0] =>
         destruct (finishAndAfterSteps_spec w s0)
           as (r & s3 & t3 & E3 & _ & Hp3 & _ & _ & _ & _);
         destruct (finishAndAfterSteps_more _ _ _ _ _ E3) as (t3' & [= <-] & Hk3 & Hx3 & Hpre3);
         rewrite E3
       end; cbn.
  all: eexists _, _, _; (split; [reflexivity|]).
  all: rewrite Hp3, Hs2.
  all: destruct (user_loop_trace _ Hk1) as (Hu1 & Hu2 & Hu3 & Hu4 & Hu5).
  all: destruct (store_trace _ Hk2) as (Hv1 & Hv2 & Hv3 & Hv4 & Hv5 & Hv6 & Hv7).
  all: destruct (after_finish_trace _ Hk3) as (Hw1 & Hw2 & Hw3 & Hw4 & Hw5 & Hw6 & Hw7).
  all: pose proof (existsb_kind _ _ _ store_no_step_failed Hk2) as Hf2.
  all: unfold steps_run, finishes, exported in *.
  all: cbn; rewrite ?omap_app, ?existsb_app, ?forallb_app, ?count_app; cbn;
       rewrite ?omap_app, ?existsb_app, ?forallb_app, ?count_app; cbn.
  all: rewrite ?Hu1, ?Hu2, ?Hu3, ?Hu4, ?Hu5, ?Hv1, ?Hv2, ?Hv3, ?Hv4, ?Hv5, ?Hv6, ?Hv7,
         ?Hw1, ?Hw2, ?Hw3, ?Hw4, ?Hw5, ?Hw6, ?Hw7, ?Hf2, ?Hc1, ?Hsc; cbn.
  all: rewrite ?app_nil_r, ?orb_false_r, ?Nat.add_0_r.
  all: repeat split; try done.
  all: intros Hf; rewrite Hf in Hp1.
  all: destruct (existsb is_CollectArtifact t2); [|done].
  all: by rewrite Hart2 in Hp1.
Qed.

(** A run with its deferred calls spelled out: [Box.Stop], then [Box.Clean],
    then [buildFinisher.Finish(false)]. *)
Lemma run_more w o :
  w_NewGlobalOptions w = inr o →
  ∃ r s' t,
    pipelineBody w o zero_Locals = (r, s', t) ∧
    forallb body_action t = true ∧
    run w =
      (r, set_defers [] s',
       t ++ (if existsb is_box_created t
             then Box_Stop :: (if ShouldRemove o then [Box_Clean] else [])
             else []) ++ [Finisher_Finish false]).
Proof.
  intros Ho. destruct (run_eq w o Ho) as (r & s' & t & Hb & ->).
  destruct (pipelineBody_spec w o zero_Locals)
    as (r' & s'' & t' & Hb' & Hd & Hk & _).
  rewrite Hb in Hb'. injection Hb' as <- <- <-.
  exists r, s', t. repeat split; [done..|]. rewrite Hd. cbn [defers zero_Locals].
  by destruct (existsb is_box_created t), (ShouldRemove o).
Qed.

Ltac run_cases w o Ho :=
  let r := fresh "r" in let s' := fresh "s'" in let t := fresh "t" in
  let Hb := fresh "Hb" in let Hk := fresh "Hk" in
  let r' := fresh "r'" in let s'' := fresh "s''" in let t' := fresh "t'" in
  let Hb' := fresh "Hb'" in
  destruct (run_more w o Ho) as (r & s' & t & Hb & Hk & ->);
  destruct (pipelineBody_more w o zero_Locals)
    as (r' & s'' & t' & Hb' & Hcommit & Hsetup & Hsteps & Hafter & Hall & Hart
        & Hfin & Hexp);
  rewrite Hb in Hb'; injection Hb' as <- <- <-;
  unfold trace, final, outcome; cbn [fst snd].

(** *** More on whole runs *)

(** X9.  When the options cannot be read, [executePipeline] panics with the
    error and has only logged it: the build is not started.  Otherwise the
    last call of every run, whether it returns or panics, is the deferred
    [buildFinisher.Finish(false)]. *)
Theorem run_ends_with_Finish w :
  match w_NewGlobalOptions w with
  | inl e => run w = (Panic e, zero_Locals, [Log PanicLevel e])
  | inr _ => last (trace (run w)) = Some (Finisher_Finish false)
  end.
Proof.
  destruct (w_NewGlobalOptions w) as [e|o] eqn:Ho.
  { unfold run, executePipeline. by rewrite Ho. }
  run_cases w o Ho. rewrite app_assoc. apply last_snoc.
Qed.

(** X10.  [buildFinisher.Finish] is called once when [SetupEnvironment]
    fails and twice otherwise: in the body with the [Success] of the final
    [PipelineResult], and deferred with false.  A [PipelineResult] exported to
    the session of the after-steps is the final one. *)
Theorem finish_reports_final_result w o :
  w_NewGlobalOptions w = inr o →
  finishes (trace (run w)) =
    (if existsb is_BuildStepsAdded (trace (run w))
     then [pr_Success (pr (final (run w))); false] else [false]) ∧
  (exported (trace (run w)) = [] ∨ exported (trace (run w)) = [pr (final (run w))]).
Proof.
  intros Ho. run_cases w o Ho.
  unfold finishes, exported in *. rewrite !omap_app, !existsb_app, Hfin.
  destruct (existsb is_BuildStepsAdded t), (existsb is_box_created t), (ShouldRemove o);
    cbn; rewrite ?app_nil_r; split; try done.
  all: by destruct s'.
Qed.

(** X11.  [Box.Stop] is called once in a run in which [SetupEnvironment]
    returned a box and never in another; [Box.Clean] is called once when
    moreover [ShouldRemove] is set, and never otherwise. *)
Theorem box_cleanup_calls w o :
  w_NewGlobalOptions w = inr o →
  count is_Box_Stop (trace (run w)) =
    (if existsb is_box_created (trace (run w)) then 1 else 0) ∧
  count is_Box_Clean (trace (run w)) =
    (if existsb is_box_created (trace (run w)) && ShouldRemove o then 1 else 0).
Proof.
  intros Ho. run_cases w o Ho.
  assert (count is_Box_Clean t = 0) as Hc.
  { eapply count_kind; [|exact Hk]. by intros [] [_ ?%negb_true_iff]%andb_prop. }
  assert (count is_Box_Stop t = 0) as Hs.
  { eapply count_kind; [|exact Hk]. by intros [] [?%negb_true_iff _]%andb_prop. }
  rewrite !count_app, !existsb_app, Hc, Hs.
  destruct (existsb is_box_created t), (ShouldRemove o); cbn; done.
Qed.

(** X12.  Without [ShouldCommit] a run never calls [Box.Commit].  With it,
    the number of calls is the number of user steps that passed, and one more
    when the steps were announced: the commit after the loop is made also
    when a step has failed. *)
Theorem commits_of_a_run w o :
  w_NewGlobalOptions w = inr o →
  count is_Box_Commit (trace (run w)) =
    (if ShouldCommit o
     then count is_user_step_passed (trace (run w)) +
          (if existsb is_BuildStepsAdded (trace (run w)) then 1 else 0)
     else 0).
Proof.
  intros Ho. run_cases w o Ho.
  rewrite !count_app, !existsb_app, Hcommit.
  destruct (ShouldCommit o), (existsb is_BuildStepsAdded t),
    (existsb is_box_created t), (ShouldRemove o); cbn; lia.
Qed.

Lemma before_steps_trace t :
  forallb before_steps_action t = true →
  existsb is_BuildStepsAdded t = false ∧ existsb is_StartStep t = false ∧
  omap (step_of ctx) t = [] ∧ omap (step_of newCtx) t = [].
Proof.
  intros Hk. repeat split.
  1,2: eapply existsb_kind; [|exact Hk]; kind_solver.
  all: eapply omap_kind; [|exact Hk]; kind_solver.
Qed.

(** X13.  When [SetupEnvironment] returns an error the steps are neither
    announced nor run and nothing is stored; outside debug mode the run
    returns the error "Exiting.", in debug mode it panics with the error of
    [SetupEnvironment]. *)
Theorem setup_failure_stops_the_run w o :
  w_NewGlobalOptions w = inr o →
  existsb is_setup_failed (trace (run w)) = true →
  existsb is_BuildStepsAdded (trace (run w)) = false ∧
  steps_run ctx (trace (run w)) = [] ∧
  steps_run newCtx (trace (run w)) = [] ∧
  existsb is_StartStep (trace (run w)) = false ∧
  ∃ b e, w_SetupEnvironment w = SetupFailed b e ∧
         outcome (run w) = if Debug o then Panic e else Val (fmt_Errorf "Exiting.").
Proof.
  intros Ho. run_cases w o Ho. rewrite !existsb_app. intros Hf.
  assert (existsb is_setup_failed t = true) as Hf'.
  { destruct (existsb is_setup_failed t); [done|].
    by destruct (existsb is_box_created t), (ShouldRemove o). }
  destruct (Hsetup Hf') as (Hkb & b & e & Hse & Hr).
  destruct (before_steps_trace _ Hkb) as (H1 & H2 & H3 & H4).
  unfold steps_run. rewrite !omap_app, H1, H2, H3, H4.
  repeat split; eauto.
  all: by destruct (existsb is_box_created t), (ShouldRemove o).
Qed.

(** X14.  The user steps that run are the first steps of the pipeline, in
    order, and all of them when the steps were announced and none has failed;
    the after-steps that run are the first after-steps of the pipeline, in
    order. *)
Theorem steps_run_in_order w o :
  w_NewGlobalOptions w = inr o →
  steps_run ctx (trace (run w)) `prefix_of` w_Steps w ∧
  steps_run newCtx (trace (run w)) `prefix_of` w_AfterSteps w ∧
  (existsb is_BuildStepsAdded (trace (run w)) = true →
   existsb is_user_step_failed (trace (run w)) = false →
   steps_run ctx (trace (run w)) = w_Steps w).
Proof.
  intros Ho. run_cases w o Ho. unfold steps_run in *.
  set (tail := (if existsb is_box_created t
                then Box_Stop :: (if ShouldRemove o then [Box_Clean] else [])
                else []) ++ [Finisher_Finish false]).
  assert (∀ c, omap (step_of c) tail = []) as Hd.
  { intros c. unfold tail.
    by destruct c, (existsb is_box_created t), (ShouldRemove o). }
  assert (existsb is_BuildStepsAdded tail = false) as Ha.
  { unfold tail. by destruct (existsb is_box_created t), (ShouldRemove o). }
  rewrite !omap_app, !Hd, !app_nil_r, !existsb_app, Ha, orb_false_r.
  repeat split; [done..|]. intros H Hnf%orb_false_elim.
  apply Hall; tauto.
Qed.

(** X15.  In a run in which a user step has failed the artifact is never
    collected, also when [ShouldPush] takes the run into the store phase. *)
Theorem no_artifact_after_failure w o :
  w_NewGlobalOptions w = inr o →
  existsb is_user_step_failed (trace (run w)) = true →
  existsb is_CollectArtifact (trace (run w)) = false.
Proof.
  intros Ho. run_cases w o Ho. rewrite !existsb_app. intros Hf.
  assert (existsb is_user_step_failed t = true) as Hf'.
  { destruct (existsb is_user_step_failed t); [done|].
    by destruct (existsb is_box_created t), (ShouldRemove o). }
  rewrite (Hart Hf').
  by destruct (existsb is_box_created t), (ShouldRemove o).
Qed.

(** X16.  When the store phase is entered the store step is finished exactly
    once, with a result that agrees with the [PipelineResult] the phase
    leaves: both passed, with exit code 0 and the URL of the uploaded
    artifact, or both failed, with exit code 1.  A failed store names "store"
    as the failed step, whatever step had failed before, and tells a failed
    push from a failed artifact by its message. *)
Theorem store_step_result w o s :
  ShouldPush o || (pr_Success (pr s) && ShouldArtifacts o) = true →
  let r := storePhase w o s in
  ∃ res, step_finishes (trace r) = [res] ∧
    sr_Success res = pr_Success (pr (final r)) ∧
    sr_ExitCode res = (if pr_Success (pr (final r)) then 0 else 1)%Z ∧
    sr_PackageURL res = from_option URL "" (head (uploaded (trace r))) ∧
    pr_FailedStepName (pr (final r)) =
      (if pr_Success (pr (final r)) then "" else "store") ∧
    pr_FailedStepMessage (pr (final r)) =
      (if pr_Success (pr (final r)) then ""
       else if existsb is_CollectArtifact (trace r)
            then "Unable to store pipeline output"
            else "Unable to push to registry").
Proof. intros Hin. by apply storePhase_more. Qed.

Lemma finish_reports_final_result_witness :
  finishes (trace (run main_examples.world_push_after_failure)) =
    (if existsb is_BuildStepsAdded (trace (run main_examples.world_push_after_failure))
     then [pr_Success (pr (final (run main_examples.world_push_after_failure))); false]
     else [false]) ∧
  (exported (trace (run main_examples.world_push_after_failure)) = [] ∨
   exported (trace (run main_examples.world_push_after_failure)) =
     [pr (final (run main_examples.world_push_after_failure))]).
Proof.
  apply (finish_reports_final_result main_examples.world_push_after_failure
           main_examples.options_push).
  reflexivity.
Defined.

Lemma box_cleanup_calls_witness :
  count is_Box_Stop (trace (run main_examples.world_keep_box)) =
    (if existsb is_box_created (trace (run main_examples.world_keep_box)) then 1 else 0) ∧
  count is_Box_Clean (trace (run main_examples.world_keep_box)) =
    (if existsb is_box_created (trace (run main_examples.world_keep_box)) &&
        ShouldRemove main_examples.options_commit
     then 1 else 0).
Proof.
  apply (box_cleanup_calls main_examples.world_keep_box main_examples.options_commit).
  reflexivity.
Defined.

Lemma commits_of_a_run_witness :
  count is_Box_Commit (trace (run main_examples.world_keep_box)) =
    (if ShouldCommit main_examples.options_commit
     then count is_user_step_passed (trace (run main_examples.world_keep_box)) +
          (if existsb is_BuildStepsAdded (trace (run main_examples.world_keep_box))
           then 1 else 0)
     else 0).
Proof.
  apply (commits_of_a_run main_examples.world_keep_box main_examples.options_commit).
  reflexivity.
Defined.

Lemma setup_failure_stops_the_run_witness :
  existsb is_BuildStepsAdded (trace (run main_examples.world_setup_fails)) = false ∧
  steps_run ctx (trace (run main_examples.world_setup_fails)) = [] ∧
  steps_run newCtx (trace (run main_examples.world_setup_fails)) = [] ∧
  existsb is_StartStep (trace (run main_examples.world_setup_fails)) = false ∧
  ∃ b e, w_SetupEnvironment main_examples.world_setup_fails = SetupFailed b e ∧
         outcome (run main_examples.world_setup_fails) =
           if Debug main_examples.options0 then Panic e else Val (fmt_Errorf "Exiting.").
Proof.
  apply (setup_failure_stops_the_run main_examples.world_setup_fails
           main_examples.options0); reflexivity.
Defined.

Lemma steps_run_in_order_witness :
  steps_run ctx (trace (run main_examples.world_after_step_fails)) `prefix_of`
    w_Steps main_examples.world_after_step_fails ∧
  steps_run newCtx (trace (run main_examples.world_after_step_fails)) `prefix_of`
    w_AfterSteps main_examples.world_after_step_fails ∧
  (existsb is_BuildStepsAdded (trace (run main_examples.world_after_step_fails)) = true →
   existsb is_user_step_failed (trace (run main_examples.world_after_step_fails)) = false →
   steps_run ctx (trace (run main_examples.world_after_step_fails)) =
     w_Steps main_examples.world_after_step_fails).
Proof.
  apply (steps_run_in_order main_examples.world_after_step_fails main_examples.options0).
  reflexivity.
Defined.

Lemma no_artifact_after_failure_witness :
  existsb is_CollectArtifact (trace (run main_examples.world_push_after_failure)) = false.
Proof.
  apply (no_artifact_after_failure main_examples.world_push_after_failure
           main_examples.options_push); reflexivity.
Defined.

Lemma store_step_result_witness :
  let r := storePhase main_examples.world_push_fails main_examples.options_push_artifacts
             (set_pr (set_pr_Success true (pr zero_Locals)) zero_Locals) in
  ∃ res, step_finishes (trace r) = [res] ∧
    sr_Success res = pr_Success (pr (final r)) ∧
    sr_ExitCode res = (if pr_Success (pr (final r)) then 0 else 1)%Z ∧
    sr_PackageURL res = from_option URL "" (head (uploaded (trace r))) ∧
    pr_FailedStepName (pr (final r)) =
      (if pr_Success (pr (final r)) then "" else "store") ∧
    pr_FailedStepMessage (pr (final r)) =
      (if pr_Success (pr (final r)) then ""
       else if existsb is_CollectArtifact (trace r)
            then "Unable to store pipeline output"
            else "Unable to push to registry").
Proof.
  apply (store_step_result main_examples.world_push_fails
           main_examples.options_push_artifacts
           (set_pr (set_pr_Success true (pr zero_Locals)) zero_Locals)).
  reflexivity.
Defined.

End pipeline_proofs.

(** ** Proofs: the other commands of package main *)

Module cli_proofs.
Import main cli.

Ltac unfold_cmd :=
  cbv beta iota zeta delta
    [cbind bind ret cret emit call defer_call modify panic os_Exit
     cli.log_Println cli.log_Error cli.log_Panicln cli.SoftExit_Exit].

(** [SoftExit.Exit] in a command does what it does in [executePipeline]. *)
Lemma SoftExit_Exit_agrees (o : Options) (g : GlobalOptions) v d s :
  Debug g = o_Debug o →
  outcome (cli.SoftExit_Exit o v d) =
    match outcome (main.SoftExit_Exit {| SoftExit_options := g |} v s) with
    | Val err => Val (inr err)
    | Panic msg => Panic msg
    end.
Proof.
  intros Hg. unfold cli.SoftExit_Exit, main.SoftExit_Exit. cbn. rewrite Hg.
  by destruct (o_Debug o).
Qed.

(** *** detect *)

Lemma language_values Ext name lang :
  language Ext name = Some lang → lang ∈ ["nodejs"; "python"; "ruby"; "golang"].
Proof.
  unfold language. rewrite !elem_of_cons.
  repeat case_decide; intros [= <-]; tauto.
Qed.

(** X17.  The loop of [detectProject] goes by the order of the directory:
    the first file that stands for a language decides, whatever comes after
    it. *)
Theorem detect_first_match Ext (l1 l2 : list string) (f lang : string) :
  Forall (λ g, language Ext g = None) l1 →
  language Ext f = Some lang →
  detect Ext (l1 ++ f :: l2) = lang.
Proof.
  intros Hl1 Hf. induction Hl1 as [|g l1 Hg _ IH]; cbn.
  - by rewrite Hf.
  - by rewrite Hg.
Qed.

(** X18.  The loop detects one of four languages or nothing, and nothing
    exactly when no file of the directory stands for a language. *)
Theorem detect_nothing Ext (files : list string) :
  detect Ext files ∈ [""; "nodejs"; "python"; "ruby"; "golang"] ∧
  (detect Ext files = "" ↔ Forall (λ f, language Ext f = None) files).
Proof.
  induction files as [|f files [IHin IH]]; cbn.
  { split; [by left|done]. }
  destruct (language Ext f) as [lang|] eqn:Hf.
  - pose proof (language_values _ _ _ Hf) as Hlang. split; [by right|].
    split.
    + intros ->. rewrite !elem_of_cons, elem_of_nil in Hlang.
      by destruct Hlang as [|[|[|[|]]]].
    + intros Hall. apply Forall_cons in Hall as [Hf' _]. congruence.
  - split; [done|]. rewrite IH. split.
    + intros Hall. by apply Forall_cons.
    + intros Hall. by apply Forall_cons in Hall as [_ ?].
Qed.

(** [getYml], by cases. *)
Lemma getYml_cases e detected o d :
  ∃ t, getYml e detected o d =
         (if getYml_exits e then Val (inl 1%Z) else Val (inr tt), d, t) ∧
    omap url_of t =
      (if declined e then [] else [WerckerEndpoint o +:+ "/yml/" +:+ detected]) ∧
    omap written_of t =
      (if getYml_exits e then [] else [("wercker.yml", (e_ReadAll e).1, 420%Z)]) ∧
    count is_Body_Close t = (if getYml_exits e then 0 else 1) ∧
    count is_File_Close t = 0 ∧
    (getYml_exits e = false → last t = Some Body_Close).
Proof.
  unfold getYml, getYml_exits, declined, cfunc. unfold_cmd.
  destruct (e_ReadAll e) as [body err].
  destruct (decide (e_Stat e = None)) as [Hs|Hs];
    [rewrite (bool_decide_eq_true_2 _ Hs)|rewrite (bool_decide_eq_false_2 _ Hs)];
    [destruct (e_askForConfirmation e)|]; cbn.
  2: by eexists.
  all: destruct (decide (e_Get e ≠ None)) as [Hg|Hg];
    [rewrite (bool_decide_eq_true_2 _ Hg)|rewrite (bool_decide_eq_false_2 _ Hg)]; cbn.
  1,3: by eexists.
  all: destruct (decide (err ≠ None)), (decide (e_WriteFile e ≠ None)); cbn.
  all: by eexists.
Qed.

Lemma ends_cons {A} (c : A) (l s : list A) :
  (∃ t, l = t ++ s) → ∃ t, c :: l = t ++ s.
Proof. intros [t ->]. by exists (c :: t). Qed.

(** [detectProject], by cases. *)
Lemma detectProject_cases e o :
  e_NewGlobalOptions e = inr o →
  ∃ r t, run (detectProject e) = (r, [], t) ∧
    (directory_panics e o = true → ∃ msg, r = Panic msg) ∧
    (directory_panics e o = false →
       r = if getYml_exits e then Val (inl 1%Z) else Val (inr tt)) ∧
    omap url_of t =
      (if directory_panics e o || declined e then []
       else [WerckerEndpoint o +:+ "/yml/" +:+ detected_or_default e]) ∧
    omap written_of t =
      (if directory_panics e o || getYml_exits e then []
       else [("wercker.yml", (e_ReadAll e).1, 420%Z)]) ∧
    count is_Body_Close t =
      (if directory_panics e o || getYml_exits e then 0 else 1) ∧
    (directory_panics e o = false →
       count is_File_Close t = if getYml_exits e then 0 else 1) ∧
    (directory_panics e o = false → getYml_exits e = false →
       ∃ t', t = t' ++ [Body_Close; File_Close]).
Proof.
  intros Ho. unfold run, detectProject, cfunc, directory_panics, detected_or_default.
  rewrite Ho. unfold_cmd.
  destruct (e_Readdir e) as [files err]. cbn [fst snd].
  set (detected := detect (filepath_Ext e) files).
  destruct (e_Open e) as [err0|], (o_Debug o), err as [err1|],
    (decide (detected = "")) as [Hd|Hd]; cbn.
  all: try (do 2 eexists; split; [reflexivity|]; repeat split; try done; eauto; fail).
  all: match goal with |- context [getYml ?e' ?x ?o' ?d] =>
         destruct (getYml_cases e' x o' d) as (t & -> & Hurl & Hw & Hb & Hf & Hlast) end.
  all: destruct (getYml_exits e) eqn:Hx; cbn.
  all: do 2 eexists; (split; [reflexivity|]).
  all: cbn; rewrite ?omap_app, ?count_app, ?Hurl, ?Hw, ?Hb, ?Hf; cbn.
  all: repeat split; try done.
  all: try (by destruct (declined e)).
  all: intros _ _; destruct (last_Some t Body_Close) as [[t' ->] _]; [by apply Hlast|].
  all: rewrite <-app_assoc; cbn.
  all: repeat apply ends_cons; by exists t'.
Qed.

(** X19.  [detectProject] asks the wercker endpoint for one yml at most:
    the one of the language detected, or the default one.  Outside debug
    mode an error of [os.Open] or of [Readdir] does not change this: the run
    goes on with the files [Readdir] gave.  Nothing is requested when the
    run has panicked on the directory, or when the user has declined to
    overwrite wercker.yml. *)
Theorem detectProject_request e o :
  e_NewGlobalOptions e = inr o →
  omap url_of (trace (run (detectProject e))) =
    if directory_panics e o || declined e then []
    else [WerckerEndpoint o +:+ "/yml/" +:+ detected_or_default e].
Proof.
  intros Ho. destruct (detectProject_cases e o Ho) as (r & t & -> & _ & _ & Hurl & _).
  exact Hurl.
Qed.

(** X20.  When [detectProject] ends by [os.Exit], the code is 1, the user
    has declined or the request has failed, and nothing was written; the
    deferred calls did not run: neither the directory nor the response body
    was closed. *)
Theorem detectProject_exit e code :
  outcome (run (detectProject e)) = Val (inl code) →
  code = 1%Z ∧ getYml_exits e = true ∧
  omap written_of (trace (run (detectProject e))) = [] ∧
  count is_File_Close (trace (run (detectProject e))) = 0 ∧
  count is_Body_Close (trace (run (detectProject e))) = 0.
Proof.
  destruct (e_NewGlobalOptions e) as [err|o] eqn:Ho.
  { unfold run, detectProject, cfunc. rewrite Ho. by unfold_cmd. }
  destruct (detectProject_cases e o Ho)
    as (r & t & -> & Hp & Hr & _ & Hw & Hb & Hf & _).
  cbn. intros ->. destruct (directory_panics e o).
  { by destruct Hp as [msg ?]. }
  specialize (Hr eq_refl). specialize (Hf eq_refl). cbn in Hw, Hb.
  destruct (getYml_exits e); [|done].
  by injection Hr as ->.
Qed.

(** X21.  When [detectProject] neither panics nor exits, it returns after
    writing wercker.yml once, with mode 0644 and with what [ReadAll] gave,
    also when [ReadAll] or [WriteFile] has failed; its last two calls close
    the response body and then the directory. *)
Theorem detectProject_writes e o :
  e_NewGlobalOptions e = inr o →
  directory_panics e o = false →
  getYml_exits e = false →
  outcome (run (detectProject e)) = Val (inr tt) ∧
  omap written_of (trace (run (detectProject e))) =
    [("wercker.yml", (e_ReadAll e).1, 420%Z)] ∧
  ∃ t', trace (run (detectProject e)) = t' ++ [Body_Close; File_Close].
Proof.
  intros Ho Hp Hx.
  destruct (detectProject_cases e o Ho)
    as (r & t & -> & _ & Hr & _ & Hw & _ & _ & Hlast).
  rewrite Hp, Hx in Hw. rewrite (Hr Hp), Hx. cbn. auto.
Qed.

(** X22.  [login] asks for a token with the name and the password it has
    read.  With a token it saves it in the token store and returns what
    [saveToken] returned; without one it saves nothing, and returns the
    error of [SoftExit.Exit], or panics in debug mode. *)
Theorem login_saves_the_token e o :
  e_NewGlobalOptions e = inr o →
  omap token_request_of (trace (run (login e))) =
    [(e_readUsername e, e_readPassword e,
      BaseURL o +:+ "/api/1.0/" +:+ "oauth/basicauthaccesstoken")] ∧
  match e_getAccessToken e with
  | inr token =>
      omap saved_of (trace (run (login e))) = [(AuthTokenStore o, token)] ∧
      outcome (run (login e)) = Val (inr (e_saveToken e))
  | inl err =>
      omap saved_of (trace (run (login e))) = [] ∧
      outcome (run (login e)) =
        if o_Debug o then Panic err else Val (inr (fmt_Errorf "Exiting."))
  end.
Proof.
  intros Ho. unfold run, login, cfunc. rewrite Ho. unfold_cmd.
  destruct (e_getAccessToken e) as [err|token]; [destruct (o_Debug o)|]; by cbn.
Qed.

(** X23.  [pull] asks the client for the first argument under the registry,
    once, unless there is no client.  A failed pull panics in debug mode and
    outside it; only the failure to make a client goes through
    [SoftExit.Exit]. *)
Theorem pull_failures e o :
  e_NewGlobalOptions e = inr o →
  match e_NewDockerClient e with
  | Some err =>
      omap pulled_of (trace (run (pull e))) = [] ∧
      outcome (run (pull e)) =
        if o_Debug o then Panic err else Val (inr (fmt_Errorf "Exiting."))
  | None =>
      (∃ opts auth, omap pulled_of (trace (run (pull e))) = [(opts, auth)] ∧
         Repository opts = o_Registry o +:+ "/" +:+ Args_Get (e_Args e) 0 ∧
         pi_Tag opts = Args_Get (e_Args e) 1 ∧
         Username auth = o_AuthToken o ∧ Password auth = o_AuthToken o) ∧
      outcome (run (pull e)) =
        match e_PullImage e with Some err => Panic err | None => Val (inr None) end
  end.
Proof.
  intros Ho. unfold run, pull, cfunc. rewrite Ho. unfold_cmd.
  destruct (e_NewDockerClient e) as [err|]; [by destruct (o_Debug o)|].
  destruct (e_PullImage e) as [err|]; cbn.
  all: split; [|done].
  all: do 2 eexists; split; [reflexivity|]; cbn.
  all: by repeat case_decide; subst.
Qed.

Lemma detectProject_request_witness :
  omap url_of (trace (run (detectProject cli_examples.env_no_directory))) =
    if directory_panics cli_examples.env_no_directory cli_examples.options0 ||
       declined cli_examples.env_no_directory
    then []
    else [WerckerEndpoint cli_examples.options0 +:+ "/yml/" +:+
            detected_or_default cli_examples.env_no_directory].
Proof.
  apply (detectProject_request cli_examples.env_no_directory cli_examples.options0).
  reflexivity.
Defined.

Lemma detectProject_exit_witness :
  1%Z = 1%Z ∧ getYml_exits cli_examples.env_declined = true ∧
  omap written_of (trace (run (detectProject cli_examples.env_declined))) = [] ∧
  count is_File_Close (trace (run (detectProject cli_examples.env_declined))) = 0 ∧
  count is_Body_Close (trace (run (detectProject cli_examples.env_declined))) = 0.
Proof.
  apply (detectProject_exit cli_examples.env_declined 1%Z).
  reflexivity.
Defined.

Lemma detectProject_writes_witness :
  outcome (run (detectProject cli_examples.env_no_directory)) = Val (inr tt) ∧
  omap written_of (trace (run (detectProject cli_examples.env_no_directory))) =
    [("wercker.yml", (e_ReadAll cli_examples.env_no_directory).1, 420%Z)] ∧
  ∃ t', trace (run (detectProject cli_examples.env_no_directory)) =
          t' ++ [Body_Close; File_Close].
Proof.
  apply (detectProject_writes cli_examples.env_no_directory cli_examples.options0);
    reflexivity.
Defined.

Lemma detect_first_match_witness :
  detect cli_examples.ext (["README"] ++ "main.go" :: ["Gemfile"]) = "golang".
Proof.
  apply (detect_first_match cli_examples.ext ["README"] ["Gemfile"] "main.go" "golang").
  - repeat constructor.
  - reflexivity.
Defined.

Lemma login_saves_the_token_witness :
  omap token_request_of (trace (run (login cli_examples.env0))) =
    [(e_readUsername cli_examples.env0, e_readPassword cli_examples.env0,
      BaseURL cli_examples.options0 +:+ "/api/1.0/" +:+ "oauth/basicauthaccesstoken")] ∧
  match e_getAccessToken cli_examples.env0 with
  | inr token =>
      omap saved_of (trace (run (login cli_examples.env0))) =
        [(AuthTokenStore cli_examples.options0, token)] ∧
      outcome (run (login cli_examples.env0)) = Val (inr (e_saveToken cli_examples.env0))
  | inl err =>
      omap saved_of (trace (run (login cli_examples.env0))) = [] ∧
      outcome (run (login cli_examples.env0)) =
        if o_Debug cli_examples.options0 then Panic err
        else Val (inr (fmt_Errorf "Exiting."))
  end.
Proof.
  apply (login_saves_the_token cli_examples.env0 cli_examples.options0).
  reflexivity.
Defined.

Lemma pull_failures_witness :
  match e_NewDockerClient cli_examples.env_no_directory with
  | Some err =>
      omap pulled_of (trace (run (pull cli_examples.env_no_directory))) = [] ∧
      outcome (run (pull cli_examples.env_no_directory)) =
        if o_Debug cli_examples.options0 then Panic err
        else Val (inr (fmt_Errorf "Exiting."))
  | None =>
      (∃ opts auth,
         omap pulled_of (trace (run (pull cli_examples.env_no_directory))) =
           [(opts, auth)] ∧
         Repository opts =
           o_Registry cli_examples.options0 +:+ "/" +:+
           Args_Get (e_Args cli_examples.env_no_directory) 0 ∧
         pi_Tag opts = Args_Get (e_Args cli_examples.env_no_directory) 1 ∧
         Username auth = o_AuthToken cli_examples.options0 ∧
         Password auth = o_AuthToken cli_examples.options0) ∧
      outcome (run (pull cli_examples.env_no_directory)) =
        match e_PullImage cli_examples.env_no_directory with
        | Some err => Panic err
        | None => Val (inr None)
        end
  end.
Proof.
  apply (pull_failures cli_examples.env_no_directory cli_examples.options0).
  reflexivity.
Defined.

End cli_proofs.

(** ** Proofs: package event *)

Module metrics_proofs.
Import event.

Section handler.
Context `{Lib}.

Lemma getCollection_ok o s :
  BuildID o ≠ "" ∨ DeployID o ≠ "" →
  ∃ c, getCollection o s = (Val c, s, []).
Proof.
  intros Hid. unfold getCollection.
  destruct (decide (BuildID o ≠ "")); [by eexists|].
  destruct (decide (DeployID o ≠ "")); [by eexists|]. tauto.
Qed.

Lemma getPipelineName_ok o s :
  BuildID o ≠ "" ∨ DeployID o ≠ "" →
  ∃ c, getPipelineName o s = (Val c, s, []).
Proof.
  intros Hid. unfold getPipelineName.
  destruct (decide (BuildID o ≠ "")); [by eexists|].
  destruct (decide (DeployID o ≠ "")); [by eexists|]. tauto.
Qed.

Lemma getCollection_neither o s :
  BuildID o = "" → DeployID o = "" →
  getCollection o s =
    (Panic "Metrics is only able to send metrics for builds or deploys", s,
     [LogPanic "Metrics is only able to send metrics for builds or deploys"]).
Proof. intros Hb Hd. unfold getCollection. by rewrite Hb, Hd. Qed.

(** Without a build or a deploy id nothing reaches keen: the call panics in
    [getCollection]. *)
Lemma sendPayload_outcome_neither args h :
  BuildID (options args) = "" → DeployID (options args) = "" →
  outcome (sendPayload args h) =
    Panic "Metrics is only able to send metrics for builds or deploys".
Proof.
  intros Hb Hd. unfold sendPayload, bind. by rewrite (getCollection_neither _ _ Hb Hd).
Qed.

Lemma BuildStepFinished_outcome_neither h args now :
  BuildID (sf_Options args) = "" → DeployID (sf_Options args) = "" →
  outcome (BuildStepFinished args now h) =
    Panic "Metrics is only able to send metrics for builds or deploys".
Proof.
  intros Hb Hd. unfold BuildStepFinished. unfold bind at 1. cbn [get].
  destruct (map_index (startStep h) (SafeID (sf_Step args))) as [begin|].
  all: unfold bind at 1; cbn.
  all: match goal with |- context [sendPayload ?a ?h'] =>
         pose proof (sendPayload_outcome_neither a h' Hb Hd) as Hp;
         destruct (sendPayload a h') as [[r s] t] end.
  all: unfold outcome in *; cbn in *; by subst.
Qed.

(** With a build or a deploy id the payload goes to keen: one event, which
    keeps the duration the caller has set; the handler is not changed. *)
Lemma sendPayload_ok args h :
  BuildID (options args) ≠ "" ∨ DeployID (options args) ≠ "" →
  ∃ c q, sendPayload args h = (Val tt, h, [AddEvent c q]) ∧
         Duration q = Duration (p args).
Proof.
  intros Hid. unfold sendPayload.
  destruct (getCollection_ok _ h Hid) as [c Hc].
  destruct (getPipelineName_ok _ h Hid) as [n Hn].
  rewrite (bind_val _ _ _ _ _ _ Hc), (bind_val _ _ _ _ _ _ Hn).
  destruct (getBoxDetails (box args)) as [bn bt]. cbn.
  eexists _, _. split; [reflexivity|]. done.
Qed.

Lemma BuildStepFinished_eq h args now :
  BuildID (sf_Options args) ≠ "" ∨ DeployID (sf_Options args) ≠ "" →
  ∃ c q,
    BuildStepFinished args now h =
      (Val tt,
       match map_index (startStep h) (SafeID (sf_Step args)) with
       | Some _ => set_startStep (map_delete (startStep h) (SafeID (sf_Step args))) h
       | None => h
       end,
       [AddEvent c q]) ∧
    Duration q =
      Some match map_index (startStep h) (SafeID (sf_Step args)) with
           | Some begin => Duration_Seconds (Time_Sub now begin)
           | None => 0%Z
           end.
Proof.
  intros Hid. unfold BuildStepFinished.
  unfold bind at 1. cbn [get].
  destruct (map_index (startStep h) (SafeID (sf_Step args))) as [begin|].
  all: unfold bind at 1; cbn.
  all: match goal with |- context [sendPayload ?a ?h'] =>
         destruct (sendPayload_ok a h' Hid) as (c & q & -> & Hq) end.
  all: by eexists _, _.
Qed.

(** C7, amended.  For a [BuildStepFinished] event whose options carry a
    [BuildID] or a [DeployID]: without a recorded start for the step's
    [SafeID] the payload is sent with duration zero and the map of starts is
    left as it is; with a recorded start the payload is sent with the whole
    seconds elapsed since, and the start is removed from the map. *)
Theorem BuildStepFinished_duration h args now :
  BuildID (sf_Options args) ≠ "" ∨ DeployID (sf_Options args) ≠ "" →
  BuildStepFinished_as_specified h args now.
Proof.
  intros Hid. unfold BuildStepFinished_as_specified.
  destruct (BuildStepFinished_eq h args now Hid) as (c & q & -> & Hq).
  unfold sent_with_duration, outcome, final, trace. cbn [fst snd].
  destruct (map_index (startStep h) (SafeID (sf_Step args))) as [begin|] eqn:Hidx.
  - split; [eauto 6|]. cbn. split; [|done].
    destruct (startStep h) as [m|]; [|done]. apply lookup_delete_eq.
  - eauto 6.
Qed.

(** C8, amended.  Asked to send a payload for options with neither a
    [BuildID] nor a [DeployID], the handler logs the violation at panic level
    and panics, whatever the debug mode; nothing is added to keen and the
    handler is left as it is. *)
Theorem sendPayload_neither args h :
  BuildID (options args) = "" →
  DeployID (options args) = "" →
  sendPayload args h =
    (Panic "Metrics is only able to send metrics for builds or deploys", h,
     [LogPanic "Metrics is only able to send metrics for builds or deploys"]).
Proof.
  intros Hb Hd. unfold sendPayload, getCollection. rewrite Hb, Hd.
  reflexivity.
Qed.

(** C10.  [NewMetricsHandler] returns no handler and an error exactly when
    the write key or the project id is empty; otherwise it returns a handler
    and no error, and the handler's [startStep] is a map that is not nil and
    is empty. *)
Theorem NewMetricsHandler_spec (opts : PipelineOptions) :
  match NewMetricsHandler opts with
  | (None, Some _) => KeenProjectWriteKey opts = "" ∨ KeenProjectID opts = ""
  | (Some h, None) =>
      KeenProjectWriteKey opts ≠ "" ∧ KeenProjectID opts ≠ "" ∧
      startStep h = Some ∅ ∧
      keen h = {| WriteKey := KeenProjectWriteKey opts; ProjectID := KeenProjectID opts |}
  | _ => False
  end.
Proof.
  unfold NewMetricsHandler.
  destruct (decide ("" = KeenProjectWriteKey opts)); [by left|].
  destruct (decide ("" = KeenProjectID opts)); [by right|].
  cbn. done.
Qed.

(** *** More on the handler *)

(** [sendPayload] in full: with a build or a deploy id, one event goes to
    keen and the handler is left as it is; a build id decides before a deploy
    id. *)
Lemma sendPayload_sent args h :
  BuildID (options args) ≠ "" ∨ DeployID (options args) ≠ "" →
  ∃ q, sendPayload args h =
         (Val tt, h,
          [AddEvent (if decide (BuildID (options args) ≠ "")
                     then "build-events" else "deploy-events") q]) ∧
       PipelineName q =
         (if decide (BuildID (options args) ≠ "") then "build" else "deploy") ∧
       p_BuildID q = BuildID (options args) ∧
       p_DeployID q = DeployID (options args) ∧
       Event q = eventName args ∧
       Duration q = Duration (p args) ∧
       Success q = Success (p args) ∧
       payload_counters q = counters h.
Proof.
  intros Hid. unfold sendPayload, getCollection, getPipelineName.
  destruct (decide (BuildID (options args) ≠ "")).
  - unfold bind; cbn. destruct (getBoxDetails (box args)). cbn. by eexists.
  - destruct (decide (DeployID (options args) ≠ "")); [|tauto].
    unfold bind; cbn. destruct (getBoxDetails (box args)). cbn. by eexists.
Qed.

(** [sendPayload] either sends one event or logs and panics; it never
    changes the handler. *)
Lemma sendPayload_cases args h :
  (∃ c q, sendPayload args h = (Val tt, h, [AddEvent c q])) ∨
  (∃ msg, sendPayload args h = (Panic msg, h, [LogPanic msg])).
Proof.
  destruct (decide (BuildID (options args) = "")) as [Hb|Hb];
    [destruct (decide (DeployID (options args) = "")) as [Hd|Hd]|].
  - right. eexists. unfold sendPayload, getCollection. rewrite Hb, Hd. reflexivity.
  - left. destruct (sendPayload_sent args h) as (q & -> & _); eauto.
  - left. destruct (sendPayload_sent args h) as (q & -> & _); eauto.
Qed.

Lemma one_event_or_none_sendPayload args h : one_event_or_none (sendPayload args h).
Proof.
  unfold one_event_or_none.
  destruct (sendPayload_cases args h) as [(c & q & ->)|(msg & ->)]; cbn; eauto.
Qed.

(** A handler that first changes the store and then sends. *)
Lemma modify_then_send f args h :
  bind (modify f) (λ _, sendPayload args) h = sendPayload args (f h).
Proof.
  unfold bind, modify. destruct (sendPayload args (f h)) as [[[] ?] ?]; done.
Qed.

Lemma BuildStepStarted_eq s now h :
  BuildStepStarted s now h =
    match startStep h with
    | None => (Panic "assignment to entry in nil map", h, [])
    | Some m =>
        sendPayload
          {| p := with_Step (ss_Step s) (ss_Order s) "" zero_MetricsPayload;
             options := ss_Options s; box := ss_Box s; now := now;
             eventName := "buildStepStarted" |}
          (set_startStep (Some (<[SafeID (ss_Step s) := now]> m)) h)
    end.
Proof.
  unfold BuildStepStarted. unfold bind at 1. cbn [get].
  destruct (startStep h) as [m|]; cbn [map_assign]; [|done].
  rewrite modify_then_send.
  by destruct (sendPayload _ _) as [[[] ?] ?].
Qed.

Lemma BuildStepFinished_eq' f now h :
  BuildStepFinished f now h =
    sendPayload
      {| p := with_Duration_Success
                (Some match map_index (startStep h) (SafeID (sf_Step f)) with
                      | Some begin => Duration_Seconds (Time_Sub now begin)
                      | None => 0%Z
                      end)
                (Some (sf_Successful f))
                (with_Step (sf_Step f) (sf_Order f) (sf_Message f) zero_MetricsPayload);
         options := sf_Options f; box := sf_Box f; now := now;
         eventName := "buildStepFinished" |}
      match map_index (startStep h) (SafeID (sf_Step f)) with
      | Some _ => set_startStep (map_delete (startStep h) (SafeID (sf_Step f))) h
      | None => h
      end.
Proof.
  unfold BuildStepFinished. unfold bind at 1. cbn [get].
  destruct (map_index (startStep h) (SafeID (sf_Step f))) as [begin|].
  all: unfold bind at 1; cbn.
  all: by destruct (sendPayload _ _) as [[[] ?] ?].
Qed.

Lemma BuildStarted_eq s now h :
  BuildStarted s now h =
    sendPayload {| p := zero_MetricsPayload; options := bs_Options s; box := None;
                   now := now; eventName := "buildStarted" |}
      (set_startBuild now h).
Proof. unfold BuildStarted. apply modify_then_send. Qed.

Lemma BuildFinished_eq f now h :
  BuildFinished f now h =
    sendPayload
      {| p := with_Duration_Success
                (Some (Duration_Seconds (Time_Sub now (startBuild h))))
                (Some (bool_decide (bf_Result f = "passed"))) zero_MetricsPayload;
         options := bf_Options f; box := bf_Box f; now := now;
         eventName := "buildFinished" |} h.
Proof.
  unfold BuildFinished. unfold bind at 1. cbn [get].
  by destruct (sendPayload _ _) as [[[] ?] ?].
Qed.

Lemma sendPayload_final args h : final (sendPayload args h) = h.
Proof. by destruct (sendPayload_cases args h) as [(c & q & ->)|(msg & ->)]. Qed.

(** X1.  A step that is started at [t0] and finished at [t1] is reported
    with the whole seconds between the two, whatever was recorded for its
    [SafeID] before, and no start is left for it.  When nothing was recorded
    for it before, the map of starts is back to what it was. *)
Theorem started_then_finished h (s : BuildStepStartedArgs) (f : BuildStepFinishedArgs)
    (t0 t1 : Time) :
  startStep h ≠ None →
  BuildID (sf_Options f) ≠ "" ∨ DeployID (sf_Options f) ≠ "" →
  SafeID (sf_Step f) = SafeID (ss_Step s) →
  let h1 := final (BuildStepStarted s t0 h) in
  let r := BuildStepFinished f t1 h1 in
  sent_with_duration r (Duration_Seconds (Time_Sub t1 t0)) ∧
  map_index (startStep (final r)) (SafeID (ss_Step s)) = None ∧
  (map_index (startStep h) (SafeID (ss_Step s)) = None →
   startStep (final r) = startStep h).
Proof.
  intros Hm Hid Hsafe. cbn zeta.
  destruct (startStep h) as [m|] eqn:Hh; [clear Hm|done].
  rewrite BuildStepStarted_eq, Hh, sendPayload_final.
  rewrite BuildStepFinished_eq'. cbn [startStep set_startStep]. rewrite Hsafe.
  unfold map_index at 1 2. cbn. rewrite lookup_insert_eq.
  destruct (sendPayload_sent
    {| p := with_Duration_Success (Some (Duration_Seconds (Time_Sub t1 t0)))
              (Some (sf_Successful f))
              (with_Step (sf_Step f) (sf_Order f) (sf_Message f) zero_MetricsPayload);
       options := sf_Options f; box := sf_Box f; now := t1;
       eventName := "buildStepFinished" |}
    (set_startStep (Some (delete (SafeID (ss_Step s)) (<[SafeID (ss_Step s):=t0]> m)))
       (set_startStep (Some (<[SafeID (ss_Step s):=t0]> m)) h)) Hid)
    as (q & -> & _ & _ & _ & _ & Hq & _).
  unfold sent_with_duration, outcome, final, trace. cbn.
  split; [eauto 6|]. split; [apply lookup_delete_eq|].
  intros Hnone. by rewrite delete_insert_id.
Qed.

(** X2.  The handlers keep the starts of other steps: [BuildStepStarted] and
    [BuildStepFinished] change the recorded start of their own step only,
    also when they panic, and [BuildStarted] and [BuildFinished] leave the
    map of starts alone. *)
Theorem other_starts_are_kept h (k : string) (s : BuildStepStartedArgs)
    (f : BuildStepFinishedArgs) (b : BuildStartedArgs) (e : BuildFinishedArgs)
    (now : Time) :
  k ≠ SafeID (ss_Step s) →
  k ≠ SafeID (sf_Step f) →
  map_index (startStep (final (BuildStepStarted s now h))) k = map_index (startStep h) k ∧
  map_index (startStep (final (BuildStepFinished f now h))) k = map_index (startStep h) k ∧
  startStep (final (BuildStarted b now h)) = startStep h ∧
  startStep (final (BuildFinished e now h)) = startStep h.
Proof.
  intros Hs Hf. repeat split.
  - rewrite BuildStepStarted_eq. destruct (startStep h) as [m|] eqn:Hh.
    + rewrite sendPayload_final. cbn. by apply lookup_insert_ne.
    + cbn. by rewrite Hh.
  - rewrite BuildStepFinished_eq', sendPayload_final.
    destruct (map_index (startStep h) (SafeID (sf_Step f))); [|done].
    cbn. destruct (startStep h) as [m|]; [|done]. cbn. by apply lookup_delete_ne.
  - by rewrite BuildStarted_eq, sendPayload_final.
  - by rewrite BuildFinished_eq, sendPayload_final.
Qed.

(** X3.  On a handler made by [NewMetricsHandler], [BuildStepStarted] for a
    build or a deploy completes, adds one event named "buildStepStarted" to
    keen, and records [now] as the start of the step. *)
Theorem new_handler_records_start (opts : PipelineOptions) h
    (s : BuildStepStartedArgs) (now : Time) :
  NewMetricsHandler opts = (Some h, None) →
  BuildID (ss_Options s) ≠ "" ∨ DeployID (ss_Options s) ≠ "" →
  let r := BuildStepStarted s now h in
  outcome r = Val tt ∧
  (∃ c q, trace r = [AddEvent c q] ∧ Event q = "buildStepStarted") ∧
  map_index (startStep (final r)) (SafeID (ss_Step s)) = Some now.
Proof.
  intros Hnew Hid. cbn zeta.
  assert (startStep h = Some ∅) as Hh.
  { unfold NewMetricsHandler in Hnew. repeat case_decide; by simplify_eq. }
  rewrite BuildStepStarted_eq, Hh.
  match goal with |- context [sendPayload ?a ?h'] =>
    destruct (sendPayload_sent a h' Hid) as (q & -> & _ & _ & _ & He & _) end.
  unfold outcome, final, trace. cbn. split; [done|]. split; [eauto|].
  apply lookup_insert_eq.
Qed.

(** X4.  An event for options with both a [BuildID] and a [DeployID] is a
    build event: it goes to the collection "build-events" under the pipeline
    name "build", and carries both ids.  With a [DeployID] only it goes to
    "deploy-events" under the name "deploy". *)
Theorem build_id_decides args h :
  DeployID (options args) ≠ "" →
  ∃ q, trace (sendPayload args h) =
         [AddEvent (if decide (BuildID (options args) = "")
                    then "deploy-events" else "build-events") q] ∧
       PipelineName q =
         (if decide (BuildID (options args) = "") then "deploy" else "build") ∧
       p_BuildID q = BuildID (options args) ∧
       p_DeployID q = DeployID (options args).
Proof.
  intros Hd. destruct (sendPayload_sent args h (or_intror Hd))
    as (q & -> & Hn & Hb & Hdp & _).
  exists q. unfold trace; cbn. rewrite Hn, Hb, Hdp.
  repeat case_decide; done.
Qed.

(** X5.  The step counts of [BuildStepsAdded] reach every later payload.  For
    options with a [BuildID] the counts of steps and after-steps become the
    build counts and the deploy counts are kept, also when a [DeployID] is
    there too; with a [DeployID] only it is the other way round; with neither
    id the event is ignored, without a panic. *)
Theorem step_counts_reach_payloads h (a : BuildStepsAddedArgs) args :
  BuildID (options args) ≠ "" ∨ DeployID (options args) ≠ "" →
  outcome (BuildStepsAdded a h) = Val tt ∧
  ∃ c q, trace (sendPayload args (final (BuildStepsAdded a h))) = [AddEvent c q] ∧
    payload_counters q =
      (if decide (BuildID (sa_Options a) ≠ "") then
         (Z.of_nat (length (sa_Steps a)), Z.of_nat (length (sa_AfterSteps a)),
          numDeploySteps h, numDeployAfterSteps h)
       else if decide (DeployID (sa_Options a) ≠ "") then
         (numBuildSteps h, numBuildAfterSteps h,
          Z.of_nat (length (sa_Steps a)), Z.of_nat (length (sa_AfterSteps a)))
       else counters h).
Proof.
  intros Hid. unfold BuildStepsAdded.
  destruct (decide (BuildID (sa_Options a) ≠ ""));
    [|destruct (decide (DeployID (sa_Options a) ≠ ""))].
  all: split; [done|].
  all: match goal with |- context [sendPayload ?a ?h'] =>
         destruct (sendPayload_sent a h' Hid) as (q & -> & _ & _ & _ & _ & _ & _ & Hc) end.
  all: eexists _, q; split; [done|]; by rewrite Hc.
Qed.

(** X6.  A build that is started at [t0] and finished at [t1] is reported
    with the whole seconds between the two, and as a success exactly when the
    result of the event is the string "passed". *)
Theorem build_started_then_finished h (b : BuildStartedArgs) (e : BuildFinishedArgs)
    (t0 t1 : Time) :
  BuildID (bf_Options e) ≠ "" ∨ DeployID (bf_Options e) ≠ "" →
  let r := BuildFinished e t1 (final (BuildStarted b t0 h)) in
  sent_with_duration r (Duration_Seconds (Time_Sub t1 t0)) ∧
  ∃ c q, trace r = [AddEvent c q] ∧ Event q = "buildFinished" ∧
         Success q = Some (bool_decide (bf_Result e = "passed")).
Proof.
  intros Hid. cbn zeta.
  rewrite BuildStarted_eq, sendPayload_final, BuildFinished_eq.
  match goal with |- context [sendPayload ?a ?h'] =>
    destruct (sendPayload_sent a h' Hid) as (q & -> & _ & _ & _ & He & Hd & Hs & _) end.
  unfold sent_with_duration, outcome, trace. cbn. eauto 10.
Qed.

(** X7.  A [BuildFinished] that no [BuildStarted] came before, on a handler
    made by [NewMetricsHandler], is reported with the seconds elapsed since
    the zero [time.Time], not with zero as a step without a start is. *)
Theorem build_finished_without_start (opts : PipelineOptions) h
    (e : BuildFinishedArgs) (f : BuildStepFinishedArgs) (now : Time) :
  NewMetricsHandler opts = (Some h, None) →
  BuildID (bf_Options e) ≠ "" ∨ DeployID (bf_Options e) ≠ "" →
  BuildID (sf_Options f) ≠ "" ∨ DeployID (sf_Options f) ≠ "" →
  sent_with_duration (BuildFinished e now h) (Duration_Seconds (Time_Sub now Time_zero)) ∧
  sent_with_duration (BuildStepFinished f now h) 0.
Proof.
  intros Hnew Hide Hidf.
  assert (startStep h = Some ∅ ∧ startBuild h = Time_zero) as [Hh Hb].
  { unfold NewMetricsHandler in Hnew. repeat case_decide; by simplify_eq. }
  split.
  - rewrite BuildFinished_eq, Hb.
    match goal with |- context [sendPayload ?a ?h'] =>
      destruct (sendPayload_sent a h' Hide) as (q & -> & _ & _ & _ & _ & Hd & _) end.
    unfold sent_with_duration, outcome, trace. cbn. eauto 6.
  - rewrite BuildStepFinished_eq', Hh. unfold map_index. cbn. rewrite lookup_empty.
    match goal with |- context [sendPayload ?a ?h'] =>
      destruct (sendPayload_sent a h' Hidf) as (q & -> & _ & _ & _ & _ & Hd & _) end.
    unfold sent_with_duration, outcome, trace. cbn. eauto 6.
Qed.

(** X8.  Every call of [BuildStarted], [BuildFinished], [BuildStepStarted]
    and [BuildStepFinished] either completes and has added exactly one event
    to keen, or panics and has added none. *)
Theorem handlers_send_one_event_or_none h (b : BuildStartedArgs) (e : BuildFinishedArgs)
    (s : BuildStepStartedArgs) (f : BuildStepFinishedArgs) (now : Time) :
  one_event_or_none (BuildStarted b now h) ∧
  one_event_or_none (BuildFinished e now h) ∧
  one_event_or_none (BuildStepStarted s now h) ∧
  one_event_or_none (BuildStepFinished f now h).
Proof.
  rewrite BuildStarted_eq, BuildFinished_eq, BuildStepStarted_eq, BuildStepFinished_eq'.
  repeat split; try apply one_event_or_none_sendPayload.
  destruct (startStep h); [apply one_event_or_none_sendPayload|done].
Qed.

End handler.

Import event_examples.

Lemma BuildStepFinished_duration_witness :
  BuildStepFinished_as_specified handler1 (finished build_options) 5500000000%Z.
Proof.
  apply (BuildStepFinished_duration handler1 (finished build_options) 5500000000%Z).
  left. discriminate.
Defined.

(** C7 fails as stated: for options with neither id the event is not sent. *)
Lemma BuildStepFinished_counterexample :
  ¬ BuildStepFinished_as_specified handler0 (finished anonymous_options) 5500000000%Z.
Proof.
  unfold BuildStepFinished_as_specified.
  replace (map_index (startStep handler0) (SafeID (sf_Step (finished anonymous_options))))
    with (@None Z) by (symmetry; apply lookup_empty).
  intros [[H _] _].
  rewrite BuildStepFinished_outcome_neither in H by reflexivity. discriminate.
Qed.

Lemma sendPayload_neither_witness :
  sendPayload (payload_args anonymous_options) handler0 =
    (Panic "Metrics is only able to send metrics for builds or deploys", handler0,
     [LogPanic "Metrics is only able to send metrics for builds or deploys"]).
Proof.
  apply (sendPayload_neither (payload_args anonymous_options) handler0); reflexivity.
Defined.

(** C8 fails as stated: outside debug mode the call is not skipped, it
    panics. *)
Lemma sendPayload_counterexample :
  ¬ sendPayload_as_specified handler0 (payload_args anonymous_options).
Proof.
  unfold sendPayload_as_specified. intros H. specialize (H eq_refl eq_refl).
  cbn [Debug options payload_args anonymous_options] in H. destruct H as [H _].
  rewrite sendPayload_outcome_neither in H by reflexivity. discriminate.
Qed.


Lemma started_then_finished_witness :
  let h1 := final (BuildStepStarted (started build_options) 2000000000%Z handler0) in
  let r := BuildStepFinished (finished build_options) 5500000000%Z h1 in
  sent_with_duration r (Duration_Seconds (Time_Sub 5500000000%Z 2000000000%Z)) ∧
  map_index (startStep (final r)) (SafeID (ss_Step (started build_options))) = None ∧
  (map_index (startStep handler0) (SafeID (ss_Step (started build_options))) = None →
   startStep (final r) = startStep handler0).
Proof.
  apply (started_then_finished handler0 (started build_options) (finished build_options)
           2000000000%Z 5500000000%Z).
  - discriminate.
  - left. discriminate.
  - reflexivity.
Defined.

Lemma other_starts_are_kept_witness :
  map_index (startStep (final (BuildStepStarted (started build_options) 7%Z handler1)))
    "deploy-4" = map_index (startStep handler1) "deploy-4" ∧
  map_index (startStep (final (BuildStepFinished (finished build_options) 7%Z handler1)))
    "deploy-4" = map_index (startStep handler1) "deploy-4" ∧
  startStep (final (BuildStarted {| bs_Options := build_options |} 7%Z handler1)) =
    startStep handler1 ∧
  startStep (final (BuildFinished (build_finished build_options "passed") 7%Z handler1)) =
    startStep handler1.
Proof.
  apply (other_starts_are_kept handler1 "deploy-4" (started build_options)
           (finished build_options) {| bs_Options := build_options |}
           (build_finished build_options "passed") 7%Z); discriminate.
Defined.

Lemma new_handler_records_start_witness :
  let r := BuildStepStarted (started build_options) 7%Z handler0 in
  outcome r = Val tt ∧
  (∃ c q, trace r = [AddEvent c q] ∧ Event q = "buildStepStarted") ∧
  map_index (startStep (final r)) (SafeID (ss_Step (started build_options))) = Some 7%Z.
Proof.
  apply (new_handler_records_start build_options handler0 (started build_options) 7%Z).
  - reflexivity.
  - left. discriminate.
Defined.

Lemma build_id_decides_witness :
  ∃ q, trace (sendPayload (payload_args both_options) handler0) =
         [AddEvent (if decide (BuildID (options (payload_args both_options)) = "")
                    then "deploy-events" else "build-events") q] ∧
       PipelineName q =
         (if decide (BuildID (options (payload_args both_options)) = "")
          then "deploy" else "build") ∧
       p_BuildID q = BuildID (options (payload_args both_options)) ∧
       p_DeployID q = DeployID (options (payload_args both_options)).
Proof.
  apply (build_id_decides (payload_args both_options) handler0). discriminate.
Defined.

Lemma step_counts_reach_payloads_witness :
  outcome (BuildStepsAdded (steps_added build_options) handler0) = Val tt ∧
  ∃ c q,
    trace (sendPayload (payload_args build_options)
             (final (BuildStepsAdded (steps_added build_options) handler0))) =
      [AddEvent c q] ∧
    payload_counters q =
      (if decide (BuildID (sa_Options (steps_added build_options)) ≠ "") then
         (Z.of_nat (length (sa_Steps (steps_added build_options))),
          Z.of_nat (length (sa_AfterSteps (steps_added build_options))),
          numDeploySteps handler0, numDeployAfterSteps handler0)
       else if decide (DeployID (sa_Options (steps_added build_options)) ≠ "") then
         (numBuildSteps handler0, numBuildAfterSteps handler0,
          Z.of_nat (length (sa_Steps (steps_added build_options))),
          Z.of_nat (length (sa_AfterSteps (steps_added build_options))))
       else counters handler0).
Proof.
  apply (step_counts_reach_payloads handler0 (steps_added build_options)
           (payload_args build_options)).
  left. discriminate.
Defined.

Lemma build_started_then_finished_witness :
  let r := BuildFinished (build_finished build_options "passed") 5500000000%Z
             (final (BuildStarted {| bs_Options := build_options |} 2000000000%Z handler0)) in
  sent_with_duration r (Duration_Seconds (Time_Sub 5500000000%Z 2000000000%Z)) ∧
  ∃ c q, trace r = [AddEvent c q] ∧ Event q = "buildFinished" ∧
         Success q =
           Some (bool_decide (bf_Result (build_finished build_options "passed") = "passed")).
Proof.
  apply (build_started_then_finished handler0 {| bs_Options := build_options |}
           (build_finished build_options "passed") 2000000000%Z 5500000000%Z).
  left. discriminate.
Defined.

Lemma build_finished_without_start_witness :
  sent_with_duration (BuildFinished (build_finished build_options "passed") 5500000000%Z handler0)
    (Duration_Seconds (Time_Sub 5500000000%Z Time_zero)) ∧
  sent_with_duration (BuildStepFinished (finished build_options) 5500000000%Z handler0) 0.
Proof.
  apply (build_finished_without_start build_options handler0
           (build_finished build_options "passed") (finished build_options) 5500000000%Z).
  - reflexivity.
  - left. discriminate.
  - left. discriminate.
Defined.

End metrics_proofs.
